(** * EVE_CoDl.h: the display-list state-caching encoder

    A shallow embedding of the inline functions of
    [source/BSP/drivers/eve_hal/EVE_CoDl.h] and the properties of the
    display-list encoder they implement: duplicate suppression against the
    shadow state, the save/restore ring of shadow states, primitive
    begin/end tracking and the vertex precision fallback. *)

From Stdlib Require Import ZArith List Bool Lia.
From stdpp Require Import base option list numbers.

Local Open Scope Z_scope.

(** ** Fixed-width integers

    A C integer is its mathematical value in [Z]; a conversion to a narrower
    type is written out where the source performs one. *)

Definition to_uint8 (z : Z) : Z := z mod 256.
Definition to_int16 (z : Z) : Z := (z + 32768) mod 65536 - 32768.

Definition is_int16 (z : Z) : Prop := -32768 <= z < 32768.

(** ** MACROS *)

Definition EVE_VERTEX2F_MIN : Z := -16384.
Definition EVE_VERTEX2F_MAX : Z := 16383.
Definition EVE_VERTEX2II_MIN : Z := 0.
Definition EVE_VERTEX2II_MAX : Z := 511.

(** ** Display-list words

    Modelled from the spec: the instruction macros ([COLOR_RGB], [VERTEX2F],
    ...) are defined outside this header; the spec (section 1) treats the
    encoder as a pure function from an opcode and its operands to a 32-bit
    word.  A word is therefore kept as the macro application that produced
    it, one constructor per macro the header uses; [WORD_OR w bits] is the
    C expression [w | bits]. *)

Inductive DlWord : Type :=
  | DISPLAY
  | VERTEX2F (x y : Z)
  | VERTEX2II (x y handle cell : Z)
  | BITMAP_SOURCE (addr : Z)
  | BITMAP_SOURCE2 (flash : bool) (addr : Z)
  | CLEAR_COLOR_RGB (r g b : Z)
  | CLEAR_COLOR_A (alpha : Z)
  | TAG (s : Z)
  | COLOR_RGB (r g b : Z)
  | COLOR_A (alpha : Z)
  | BITMAP_HANDLE (handle : Z)
  | CELL (cell : Z)
  | BITMAP_LAYOUT_H (linestride height : Z)
  | BITMAP_LAYOUT (format linestride height : Z)
  | BITMAP_SIZE_H (width height : Z)
  | BITMAP_SIZE (filter wrapx wrapy width height : Z)
  | ALPHA_FUNC (func ref : Z)
  | STENCIL_FUNC (func ref mask : Z)
  | BLEND_FUNC (src dst : Z)
  | STENCIL_OP (sfail spass : Z)
  | POINT_SIZE (size : Z)
  | LINE_WIDTH (width : Z)
  | CLEAR_STENCIL (s : Z)
  | CLEAR_TAG (s : Z)
  | STENCIL_MASK (mask : Z)
  | TAG_MASK (mask : bool)
  | BITMAP_TRANSFORM_A (v : Z)
  | BITMAP_TRANSFORM_A_EXT (p : bool) (v : Z)
  | BITMAP_TRANSFORM_B (v : Z)
  | BITMAP_TRANSFORM_B_EXT (p : bool) (v : Z)
  | BITMAP_TRANSFORM_C (v : Z)
  | BITMAP_TRANSFORM_D (v : Z)
  | BITMAP_TRANSFORM_D_EXT (p : bool) (v : Z)
  | BITMAP_TRANSFORM_E (v : Z)
  | BITMAP_TRANSFORM_E_EXT (p : bool) (v : Z)
  | BITMAP_TRANSFORM_F (v : Z)
  | SCISSOR_XY (x y : Z)
  | SCISSOR_SIZE (width height : Z)
  | CALL (dest : Z)
  | JUMP (dest : Z)
  | BEGIN (prim : Z)
  | COLOR_MASK (r g b a : bool)
  | END
  | SAVE_CONTEXT
  | RESTORE_CONTEXT
  | RETURN
  | MACRO (m : Z)
  | CLEAR (c s t : bool)
  | VERTEX_FORMAT (frac : Z)
  | PALETTE_SOURCE (addr : Z)
  | VERTEX_TRANSLATE_X (x : Z)
  | VERTEX_TRANSLATE_Y (y : Z)
  | WORD_OR (w : DlWord) (bits : Z).

(** ** Build configuration

    The switches of [EVE_Config.h] that the header tests with [#if], and the
    size and index mask of the shadow-state stack.  They are defined outside
    this header and are taken as parameters. *)

Record EVE_Config : Type := {
  EVE_DL_OPTIMIZE : bool;
  EVE_DL_CACHE_SCISSOR : bool;
  EVE_DL_END_PRIMITIVE : bool;
  EVE_DL_STATE_STACK_SIZE : Z;
  EVE_DL_STATE_STACK_MASK : Z
}.

(** The primitive and blend constants the header names; their values are
    defined outside this header and are taken as parameters. *)

Record EVE_GpuDefs : Type := {
  LINE_STRIP : Z;
  EDGE_STRIP_R : Z;
  EDGE_STRIP_L : Z;
  EDGE_STRIP_A : Z;
  EDGE_STRIP_B : Z;
  SRC_ALPHA : Z;
  ONE_MINUS_SRC_ALPHA : Z
}.

(** ** Shadow state and host context

    Modelled from the spec: [EVE_HalDlState] and [EVE_HalContext] are
    declared outside this header.  The record has the fields the header
    reads and writes through [EVE_DL_STATE] (spec section 3, ShadowState);
    the context has the two fields the header accesses through [phost], the
    snapshot array, and the words handed to [EVE_CoCmd_dl], oldest first. *)

Record EVE_HalDlState : Type := {
  PaletteSource : Z;      (* uint32_t *)
  ColorRGB : Z;           (* uint32_t *)
  LineWidth : Z;          (* int16_t *)
  PointSize : Z;          (* int16_t *)
  ScissorX : Z;           (* uint16_t *)
  ScissorY : Z;           (* uint16_t *)
  ScissorWidth : Z;       (* uint16_t *)
  ScissorHeight : Z;      (* uint16_t *)
  ColorA : Z;             (* uint8_t *)
  Handle : Z;             (* uint8_t *)
  Cell : Z;               (* uint8_t *)
  VertexFormat : Z;       (* uint8_t *)
  BitmapTransform : bool  (* a transform other than the identity is set *)
}.

Record EVE_HalContext : Type := {
  DlStateIndex : Z;                 (* uint8_t *)
  DlPrimitive : Z;                  (* uint8_t, 0 = none *)
  DlState : list EVE_HalDlState;    (* EVE_HalDlState DlState[EVE_DL_STATE_STACK_SIZE] *)
  CoCmdDl : list DlWord             (* the display list written so far *)
}.

(** Field assignments [s.F = v] on the shadow state. *)

Definition with_PaletteSource (v : Z) (s : EVE_HalDlState) : EVE_HalDlState :=
  {| PaletteSource := v; ColorRGB := ColorRGB s; LineWidth := LineWidth s;
     PointSize := PointSize s; ScissorX := ScissorX s; ScissorY := ScissorY s;
     ScissorWidth := ScissorWidth s; ScissorHeight := ScissorHeight s;
     ColorA := ColorA s; Handle := Handle s; Cell := Cell s;
     VertexFormat := VertexFormat s; BitmapTransform := BitmapTransform s |}.

Definition with_ColorRGB (v : Z) (s : EVE_HalDlState) : EVE_HalDlState :=
  {| PaletteSource := PaletteSource s; ColorRGB := v; LineWidth := LineWidth s;
     PointSize := PointSize s; ScissorX := ScissorX s; ScissorY := ScissorY s;
     ScissorWidth := ScissorWidth s; ScissorHeight := ScissorHeight s;
     ColorA := ColorA s; Handle := Handle s; Cell := Cell s;
     VertexFormat := VertexFormat s; BitmapTransform := BitmapTransform s |}.

Definition with_LineWidth (v : Z) (s : EVE_HalDlState) : EVE_HalDlState :=
  {| PaletteSource := PaletteSource s; ColorRGB := ColorRGB s; LineWidth := v;
     PointSize := PointSize s; ScissorX := ScissorX s; ScissorY := ScissorY s;
     ScissorWidth := ScissorWidth s; ScissorHeight := ScissorHeight s;
     ColorA := ColorA s; Handle := Handle s; Cell := Cell s;
     VertexFormat := VertexFormat s; BitmapTransform := BitmapTransform s |}.

Definition with_PointSize (v : Z) (s : EVE_HalDlState) : EVE_HalDlState :=
  {| PaletteSource := PaletteSource s; ColorRGB := ColorRGB s;
     LineWidth := LineWidth s; PointSize := v; ScissorX := ScissorX s;
     ScissorY := ScissorY s; ScissorWidth := ScissorWidth s;
     ScissorHeight := ScissorHeight s; ColorA := ColorA s; Handle := Handle s;
     Cell := Cell s; VertexFormat := VertexFormat s;
     BitmapTransform := BitmapTransform s |}.

Definition with_ScissorX (v : Z) (s : EVE_HalDlState) : EVE_HalDlState :=
  {| PaletteSource := PaletteSource s; ColorRGB := ColorRGB s;
     LineWidth := LineWidth s; PointSize := PointSize s; ScissorX := v;
     ScissorY := ScissorY s; ScissorWidth := ScissorWidth s;
     ScissorHeight := ScissorHeight s; ColorA := ColorA s; Handle := Handle s;
     Cell := Cell s; VertexFormat := VertexFormat s;
     BitmapTransform := BitmapTransform s |}.

Definition with_ScissorY (v : Z) (s : EVE_HalDlState) : EVE_HalDlState :=
  {| PaletteSource := PaletteSource s; ColorRGB := ColorRGB s;
     LineWidth := LineWidth s; PointSize := PointSize s;
     ScissorX := ScissorX s; ScissorY := v; ScissorWidth := ScissorWidth s;
     ScissorHeight := ScissorHeight s; ColorA := ColorA s; Handle := Handle s;
     Cell := Cell s; VertexFormat := VertexFormat s;
     BitmapTransform := BitmapTransform s |}.

Definition with_ScissorWidth (v : Z) (s : EVE_HalDlState) : EVE_HalDlState :=
  {| PaletteSource := PaletteSource s; ColorRGB := ColorRGB s;
     LineWidth := LineWidth s; PointSize := PointSize s;
     ScissorX := ScissorX s; ScissorY := ScissorY s; ScissorWidth := v;
     ScissorHeight := ScissorHeight s; ColorA := ColorA s; Handle := Handle s;
     Cell := Cell s; VertexFormat := VertexFormat s;
     BitmapTransform := BitmapTransform s |}.

Definition with_ScissorHeight (v : Z) (s : EVE_HalDlState) : EVE_HalDlState :=
  {| PaletteSource := PaletteSource s; ColorRGB := ColorRGB s;
     LineWidth := LineWidth s; PointSize := PointSize s;
     ScissorX := ScissorX s; ScissorY := ScissorY s;
     ScissorWidth := ScissorWidth s; ScissorHeight := v; ColorA := ColorA s;
     Handle := Handle s; Cell := Cell s; VertexFormat := VertexFormat s;
     BitmapTransform := BitmapTransform s |}.

Definition with_ColorA (v : Z) (s : EVE_HalDlState) : EVE_HalDlState :=
  {| PaletteSource := PaletteSource s; ColorRGB := ColorRGB s;
     LineWidth := LineWidth s; PointSize := PointSize s;
     ScissorX := ScissorX s; ScissorY := ScissorY s;
     ScissorWidth := ScissorWidth s; ScissorHeight := ScissorHeight s;
     ColorA := v; Handle := Handle s; Cell := Cell s;
     VertexFormat := VertexFormat s; BitmapTransform := BitmapTransform s |}.

Definition with_Handle (v : Z) (s : EVE_HalDlState) : EVE_HalDlState :=
  {| PaletteSource := PaletteSource s; ColorRGB := ColorRGB s;
     LineWidth := LineWidth s; PointSize := PointSize s;
     ScissorX := ScissorX s; ScissorY := ScissorY s;
     ScissorWidth := ScissorWidth s; ScissorHeight := ScissorHeight s;
     ColorA := ColorA s; Handle := v; Cell := Cell s;
     VertexFormat := VertexFormat s; BitmapTransform := BitmapTransform s |}.

Definition with_Cell (v : Z) (s : EVE_HalDlState) : EVE_HalDlState :=
  {| PaletteSource := PaletteSource s; ColorRGB := ColorRGB s;
     LineWidth := LineWidth s; PointSize := PointSize s;
     ScissorX := ScissorX s; ScissorY := ScissorY s;
     ScissorWidth := ScissorWidth s; ScissorHeight := ScissorHeight s;
     ColorA := ColorA s; Handle := Handle s; Cell := v;
     VertexFormat := VertexFormat s; BitmapTransform := BitmapTransform s |}.

Definition with_VertexFormat (v : Z) (s : EVE_HalDlState) : EVE_HalDlState :=
  {| PaletteSource := PaletteSource s; ColorRGB := ColorRGB s;
     LineWidth := LineWidth s; PointSize := PointSize s;
     ScissorX := ScissorX s; ScissorY := ScissorY s;
     ScissorWidth := ScissorWidth s; ScissorHeight := ScissorHeight s;
     ColorA := ColorA s; Handle := Handle s; Cell := Cell s;
     VertexFormat := v; BitmapTransform := BitmapTransform s |}.

Definition with_BitmapTransform (v : bool) (s : EVE_HalDlState) : EVE_HalDlState :=
  {| PaletteSource := PaletteSource s; ColorRGB := ColorRGB s;
     LineWidth := LineWidth s; PointSize := PointSize s;
     ScissorX := ScissorX s; ScissorY := ScissorY s;
     ScissorWidth := ScissorWidth s; ScissorHeight := ScissorHeight s;
     ColorA := ColorA s; Handle := Handle s; Cell := Cell s;
     VertexFormat := VertexFormat s; BitmapTransform := v |}.

(** ** C arrays

    Reading or writing [a[i]] outside the array is undefined in C: the model
    answers [None] there instead of inventing a value. *)

Definition array_get {A : Type} (a : list A) (i : Z) : option A :=
  if 0 <=? i then a !! Z.to_nat i else None.

Definition array_set {A : Type} (a : list A) (i : Z) (x : A) : option (list A) :=
  if (0 <=? i) && (i <? Z.of_nat (length a))
  then Some (<[Z.to_nat i := x]> a) else None.

(** ** Operations on the host context

    Every function of the header takes [phost] and returns nothing: it is a
    transformer of the context, [None] when it would access [DlState] out of
    bounds. *)

Definition DlOp : Type := EVE_HalContext -> option EVE_HalContext.

Definition skip : DlOp := fun h => Some h.

Definition seq_op (f g : DlOp) : DlOp := fun h => f h ≫= g.

(** [#if b ... #endif] around statements. *)
Definition when (b : bool) (f : DlOp) : DlOp := if b then f else skip.

Infix ";>" := seq_op (at level 61, left associativity).

(** [phost->DlStateIndex = v] and [phost->DlState[i] = s]. *)
Definition assign_DlStateIndex (v : Z) : DlOp := fun h =>
  Some {| DlStateIndex := v; DlPrimitive := DlPrimitive h;
          DlState := DlState h; CoCmdDl := CoCmdDl h |}.

Definition assign_DlState (i : Z) (s : EVE_HalDlState) : DlOp := fun h =>
  a ← array_set (DlState h) i s;
  Some {| DlStateIndex := DlStateIndex h; DlPrimitive := DlPrimitive h;
          DlState := a; CoCmdDl := CoCmdDl h |}.

(** [EVE_CoCmd_dl(phost, w)] appends one word to the display list. *)
Definition EVE_CoCmd_dl (w : DlWord) : DlOp := fun h =>
  Some {| DlStateIndex := DlStateIndex h; DlPrimitive := DlPrimitive h;
          DlState := DlState h; CoCmdDl := CoCmdDl h ++ [w] |}.

(** [phost->DlPrimitive = v]. *)
Definition assign_DlPrimitive (v : Z) : DlOp := fun h =>
  Some {| DlStateIndex := DlStateIndex h; DlPrimitive := v;
          DlState := DlState h; CoCmdDl := CoCmdDl h |}.

(** [EVE_DL_STATE] is [phost->DlState[phost->DlStateIndex]]: the read, and
    an assignment to one of its fields. *)
Definition EVE_DL_STATE (h : EVE_HalContext) : option EVE_HalDlState :=
  array_get (DlState h) (DlStateIndex h).

Definition assign_EVE_DL_STATE (upd : EVE_HalDlState -> EVE_HalDlState) : DlOp :=
  fun h =>
    s ← EVE_DL_STATE h;
    a ← array_set (DlState h) (DlStateIndex h) (upd s);
    Some {| DlStateIndex := DlStateIndex h; DlPrimitive := DlPrimitive h;
            DlState := a; CoCmdDl := CoCmdDl h |}.

(** ** INLINE FUNCTIONS

    The functions of the header, in its order.  A [#if] on a switch is an
    [if] on the corresponding field of the configuration. *)

Section CoDl.

Context (cfg : EVE_Config) (gpu : EVE_GpuDefs).

Definition EVE_CoDl_display : DlOp :=
  EVE_CoCmd_dl DISPLAY.

Definition EVE_CoDl_vertex2f (x y : Z) : DlOp :=
  EVE_CoCmd_dl (VERTEX2F x y).

Definition EVE_CoDl_vertex2ii (x y handle cell : Z) : DlOp :=
  EVE_CoCmd_dl (VERTEX2II x y handle cell).

Definition EVE_CoDl_bitmapSource (addr : Z) : DlOp :=
  EVE_CoCmd_dl (BITMAP_SOURCE addr).

Definition EVE_CoDl_bitmapSource_ex (addr : Z) (flash : bool) : DlOp :=
  EVE_CoCmd_dl (BITMAP_SOURCE2 flash addr).

Definition EVE_CoDl_clearColorRgb_ex (c : Z) : DlOp :=
  EVE_CoCmd_dl (WORD_OR (CLEAR_COLOR_RGB 0 0 0) (Z.land c 0xFFFFFF)).

Definition EVE_CoDl_clearColorRgb (r g b : Z) : DlOp :=
  EVE_CoCmd_dl (CLEAR_COLOR_RGB r g b).

Definition EVE_CoDl_clearColorA (alpha : Z) : DlOp :=
  EVE_CoCmd_dl (CLEAR_COLOR_A alpha).

Definition EVE_CoDl_clearColorArgb_ex (c : Z) : DlOp :=
  EVE_CoDl_clearColorRgb_ex c ;>
  EVE_CoDl_clearColorA (to_uint8 (Z.shiftr c 24)).

Definition EVE_CoDl_tag (s : Z) : DlOp :=
  EVE_CoCmd_dl (TAG s).

Definition EVE_CoDl_colorRgb_ex (c : Z) : DlOp := fun h =>
  let rgb := Z.land c 0xFFFFFF in
  if EVE_DL_OPTIMIZE cfg then
    st ← EVE_DL_STATE h;
    if negb (rgb =? ColorRGB st) then
      (EVE_CoCmd_dl (WORD_OR (COLOR_RGB 0 0 0) (Z.land c 0xFFFFFF)) ;>
       assign_EVE_DL_STATE (with_ColorRGB rgb)) h
    else Some h
  else
    EVE_CoCmd_dl (WORD_OR (COLOR_RGB 0 0 0) (Z.land c 0xFFFFFF)) h.

Definition EVE_CoDl_colorRgb (r g b : Z) : DlOp :=
  let rgb := Z.lor (Z.lor (Z.shiftl r 16) (Z.shiftl g 8)) b in
  EVE_CoDl_colorRgb_ex rgb.

Definition EVE_CoDl_colorA (alpha : Z) : DlOp := fun h =>
  if EVE_DL_OPTIMIZE cfg then
    st ← EVE_DL_STATE h;
    if negb (alpha =? ColorA st) then
      (EVE_CoCmd_dl (COLOR_A alpha) ;>
       assign_EVE_DL_STATE (with_ColorA alpha)) h
    else Some h
  else
    EVE_CoCmd_dl (COLOR_A alpha) h.

Definition EVE_CoDl_colorArgb_ex (c : Z) : DlOp :=
  EVE_CoDl_colorRgb_ex c ;>
  EVE_CoDl_colorA (to_uint8 (Z.shiftr c 24)).

Definition EVE_CoDl_bitmapHandle (handle : Z) : DlOp := fun h =>
  if EVE_DL_OPTIMIZE cfg then
    st ← EVE_DL_STATE h;
    if negb (handle =? Handle st) then
      (EVE_CoCmd_dl (BITMAP_HANDLE handle) ;>
       assign_EVE_DL_STATE (with_Handle handle)) h
    else Some h
  else
    EVE_CoCmd_dl (BITMAP_HANDLE handle) h.

Definition EVE_CoDl_cell (cell : Z) : DlOp := fun h =>
  if EVE_DL_OPTIMIZE cfg then
    st ← EVE_DL_STATE h;
    if negb (cell =? Cell st) then
      (EVE_CoCmd_dl (CELL cell) ;>
       assign_EVE_DL_STATE (with_Cell cell)) h
    else Some h
  else
    EVE_CoCmd_dl (CELL cell) h.

Definition EVE_CoDl_bitmapLayout (format linestride height : Z) : DlOp :=
  EVE_CoCmd_dl (BITMAP_LAYOUT_H (Z.shiftr linestride 10) (Z.shiftr height 9)) ;>
  EVE_CoCmd_dl (BITMAP_LAYOUT format linestride height).

Definition EVE_CoDl_bitmapSize (filter wrapx wrapy width height : Z) : DlOp :=
  EVE_CoCmd_dl (BITMAP_SIZE_H (Z.shiftr width 9) (Z.shiftr height 9)) ;>
  EVE_CoCmd_dl (BITMAP_SIZE filter wrapx wrapy width height).

Definition EVE_CoDl_alphaFunc (func ref : Z) : DlOp :=
  EVE_CoCmd_dl (ALPHA_FUNC func ref).

Definition EVE_CoDl_stencilFunc (func ref mask : Z) : DlOp :=
  EVE_CoCmd_dl (STENCIL_FUNC func ref mask).

Definition EVE_CoDl_blendFunc (src dst : Z) : DlOp :=
  EVE_CoCmd_dl (BLEND_FUNC src dst).

Definition EVE_CoDl_blendFunc_default : DlOp :=
  EVE_CoDl_blendFunc (SRC_ALPHA gpu) (ONE_MINUS_SRC_ALPHA gpu).

Definition EVE_CoDl_stencilOp (sfail spass : Z) : DlOp :=
  EVE_CoCmd_dl (STENCIL_OP sfail spass).

Definition EVE_CoDl_pointSize (size : Z) : DlOp := fun h =>
  if EVE_DL_OPTIMIZE cfg then
    st ← EVE_DL_STATE h;
    if negb (size =? PointSize st) then
      (EVE_CoCmd_dl (POINT_SIZE size) ;>
       assign_EVE_DL_STATE (with_PointSize size)) h
    else Some h
  else
    EVE_CoCmd_dl (POINT_SIZE size) h.

Definition EVE_CoDl_lineWidth (width : Z) : DlOp := fun h =>
  if EVE_DL_OPTIMIZE cfg then
    st ← EVE_DL_STATE h;
    if negb (width =? LineWidth st) then
      (EVE_CoCmd_dl (LINE_WIDTH width) ;>
       assign_EVE_DL_STATE (with_LineWidth width)) h
    else Some h
  else
    EVE_CoCmd_dl (LINE_WIDTH width) h.

Definition EVE_CoDl_clearStencil (s : Z) : DlOp :=
  EVE_CoCmd_dl (CLEAR_STENCIL s).

Definition EVE_CoDl_clearTag (s : Z) : DlOp :=
  EVE_CoCmd_dl (CLEAR_TAG s).

Definition EVE_CoDl_stencilMask (mask : Z) : DlOp :=
  EVE_CoCmd_dl (STENCIL_MASK mask).

Definition EVE_CoDl_tagMask (mask : bool) : DlOp :=
  EVE_CoCmd_dl (TAG_MASK mask).

Definition EVE_CoDl_bitmapTransformA (v : Z) : DlOp :=
  EVE_CoCmd_dl (BITMAP_TRANSFORM_A v) ;>
  when (EVE_DL_OPTIMIZE cfg) (assign_EVE_DL_STATE (with_BitmapTransform true)).

Definition EVE_CoDl_bitmapTransformA_ex (p : bool) (v : Z) : DlOp :=
  EVE_CoCmd_dl (BITMAP_TRANSFORM_A_EXT p v) ;>
  when (EVE_DL_OPTIMIZE cfg) (assign_EVE_DL_STATE (with_BitmapTransform true)).

Definition EVE_CoDl_bitmapTransformB (v : Z) : DlOp :=
  EVE_CoCmd_dl (BITMAP_TRANSFORM_B v) ;>
  when (EVE_DL_OPTIMIZE cfg) (assign_EVE_DL_STATE (with_BitmapTransform true)).

Definition EVE_CoDl_bitmapTransformB_ex (p : bool) (v : Z) : DlOp :=
  EVE_CoCmd_dl (BITMAP_TRANSFORM_B_EXT p v) ;>
  when (EVE_DL_OPTIMIZE cfg) (assign_EVE_DL_STATE (with_BitmapTransform true)).

Definition EVE_CoDl_bitmapTransformC (v : Z) : DlOp :=
  EVE_CoCmd_dl (BITMAP_TRANSFORM_C v) ;>
  when (EVE_DL_OPTIMIZE cfg) (assign_EVE_DL_STATE (with_BitmapTransform true)).

Definition EVE_CoDl_bitmapTransformD (v : Z) : DlOp :=
  EVE_CoCmd_dl (BITMAP_TRANSFORM_D v) ;>
  when (EVE_DL_OPTIMIZE cfg) (assign_EVE_DL_STATE (with_BitmapTransform true)).

Definition EVE_CoDl_bitmapTransformD_ex (p : bool) (v : Z) : DlOp :=
  EVE_CoCmd_dl (BITMAP_TRANSFORM_D_EXT p v) ;>
  when (EVE_DL_OPTIMIZE cfg) (assign_EVE_DL_STATE (with_BitmapTransform true)).

Definition EVE_CoDl_bitmapTransformE (v : Z) : DlOp :=
  EVE_CoCmd_dl (BITMAP_TRANSFORM_E v) ;>
  when (EVE_DL_OPTIMIZE cfg) (assign_EVE_DL_STATE (with_BitmapTransform true)).

Definition EVE_CoDl_bitmapTransformE_ex (p : bool) (v : Z) : DlOp :=
  EVE_CoCmd_dl (BITMAP_TRANSFORM_E_EXT p v) ;>
  when (EVE_DL_OPTIMIZE cfg) (assign_EVE_DL_STATE (with_BitmapTransform true)).

Definition EVE_CoDl_bitmapTransformF (v : Z) : DlOp :=
  EVE_CoCmd_dl (BITMAP_TRANSFORM_F v) ;>
  when (EVE_DL_OPTIMIZE cfg) (assign_EVE_DL_STATE (with_BitmapTransform true)).

Definition EVE_CoDl_bitmapTransform_ex (p : bool) (a b c d e f : Z) : DlOp :=
  EVE_CoDl_bitmapTransformA_ex p a ;>
  EVE_CoDl_bitmapTransformB_ex p b ;>
  EVE_CoDl_bitmapTransformC c ;>
  EVE_CoDl_bitmapTransformD_ex p d ;>
  EVE_CoDl_bitmapTransformE_ex p e ;>
  EVE_CoDl_bitmapTransformF f ;>
  when (EVE_DL_OPTIMIZE cfg) (assign_EVE_DL_STATE (with_BitmapTransform true)).

(** The six calls inside [EVE_CoDl_bitmapTransform_identity]. *)
Definition bitmapTransform_identity_calls : DlOp :=
  EVE_CoDl_bitmapTransformA_ex false 256 ;>
  EVE_CoDl_bitmapTransformB_ex false 0 ;>
  EVE_CoDl_bitmapTransformC 0 ;>
  EVE_CoDl_bitmapTransformD_ex false 0 ;>
  EVE_CoDl_bitmapTransformE_ex false 256 ;>
  EVE_CoDl_bitmapTransformF 0.

Definition EVE_CoDl_bitmapTransform_identity : DlOp := fun h =>
  if EVE_DL_OPTIMIZE cfg then
    st ← EVE_DL_STATE h;
    if BitmapTransform st then
      (bitmapTransform_identity_calls ;>
       assign_EVE_DL_STATE (with_BitmapTransform false)) h
    else Some h
  else
    bitmapTransform_identity_calls h.

Definition EVE_CoDl_scissorXY (x y : Z) : DlOp := fun h =>
  let body :=
    EVE_CoCmd_dl (SCISSOR_XY x y) ;>
    when (EVE_DL_CACHE_SCISSOR cfg)
      (assign_EVE_DL_STATE (with_ScissorX x) ;>
       assign_EVE_DL_STATE (with_ScissorY y)) in
  if EVE_DL_OPTIMIZE cfg && EVE_DL_CACHE_SCISSOR cfg then
    st ← EVE_DL_STATE h;
    if negb (ScissorX st =? x) || negb (ScissorY st =? y) then body h
    else Some h
  else
    body h.

Definition EVE_CoDl_scissorSize (width height : Z) : DlOp := fun h =>
  let body :=
    EVE_CoCmd_dl (SCISSOR_SIZE width height) ;>
    when (EVE_DL_CACHE_SCISSOR cfg)
      (assign_EVE_DL_STATE (with_ScissorWidth width) ;>
       assign_EVE_DL_STATE (with_ScissorHeight height)) in
  if EVE_DL_OPTIMIZE cfg && EVE_DL_CACHE_SCISSOR cfg then
    st ← EVE_DL_STATE h;
    if negb (ScissorWidth st =? width) || negb (ScissorHeight st =? height)
    then body h
    else Some h
  else
    body h.

Definition EVE_CoDl_call (dest : Z) : DlOp :=
  EVE_CoCmd_dl (CALL dest).

Definition EVE_CoDl_jump (dest : Z) : DlOp :=
  EVE_CoCmd_dl (JUMP dest).

(** The [switch] of [EVE_CoDl_begin]: the [case] labels, and the value of
    [oldPrim] after it (a continuous primitive counts as none). *)
Definition is_continuous (oldPrim : Z) : bool :=
  (oldPrim =? LINE_STRIP gpu) || (oldPrim =? EDGE_STRIP_R gpu)
  || (oldPrim =? EDGE_STRIP_L gpu) || (oldPrim =? EDGE_STRIP_A gpu)
  || (oldPrim =? EDGE_STRIP_B gpu).

Definition reset_continuous (oldPrim : Z) : Z :=
  if is_continuous oldPrim then 0 else oldPrim.

Definition EVE_CoDl_begin (prim : Z) : DlOp := fun h =>
  if EVE_DL_OPTIMIZE cfg then
    let oldPrim := reset_continuous (DlPrimitive h) in
    if negb (prim =? oldPrim) then
      (EVE_CoCmd_dl (BEGIN prim) ;> assign_DlPrimitive prim) h
    else Some h
  else
    EVE_CoCmd_dl (BEGIN prim) h.

Definition EVE_CoDl_colorMask (r g b a : bool) : DlOp :=
  EVE_CoCmd_dl (COLOR_MASK r g b a).

Definition EVE_CoDl_end : DlOp := fun h =>
  if EVE_DL_END_PRIMITIVE cfg || negb (EVE_DL_OPTIMIZE cfg) then
    if EVE_DL_OPTIMIZE cfg then
      if negb (DlPrimitive h =? 0) then
        (EVE_CoCmd_dl END ;> assign_DlPrimitive 0) h
      else Some h
    else
      EVE_CoCmd_dl END h
  else Some h.

Definition EVE_CoDl_saveContext : DlOp :=
  EVE_CoCmd_dl SAVE_CONTEXT ;>
  when (EVE_DL_OPTIMIZE cfg || EVE_DL_CACHE_SCISSOR cfg) (fun h =>
    let nextState :=
      to_uint8 (Z.land (DlStateIndex h + 1) (EVE_DL_STATE_STACK_MASK cfg)) in
    st ← array_get (DlState h) (DlStateIndex h);
    (assign_DlState nextState st ;> assign_DlStateIndex nextState) h).

Definition EVE_CoDl_restoreContext : DlOp :=
  EVE_CoCmd_dl RESTORE_CONTEXT ;>
  when (EVE_DL_OPTIMIZE cfg || EVE_DL_CACHE_SCISSOR cfg) (fun h =>
    assign_DlStateIndex
      (to_uint8 (Z.land (DlStateIndex h - 1) (EVE_DL_STATE_STACK_MASK cfg))) h).

Definition EVE_CoDl_return : DlOp :=
  EVE_CoCmd_dl RETURN.

Definition EVE_CoDl_macro (m : Z) : DlOp :=
  EVE_CoCmd_dl (MACRO m).

Definition EVE_CoDl_clear (c s t : bool) : DlOp :=
  EVE_CoCmd_dl (CLEAR c s t).

Definition EVE_CoDl_vertexFormat (frac : Z) : DlOp := fun h =>
  if EVE_DL_OPTIMIZE cfg then
    st ← EVE_DL_STATE h;
    if negb (frac =? VertexFormat st) then
      (EVE_CoCmd_dl (VERTEX_FORMAT frac) ;>
       assign_EVE_DL_STATE (with_VertexFormat frac)) h
    else Some h
  else
    EVE_CoCmd_dl (VERTEX_FORMAT frac) h.

Definition EVE_CoDl_paletteSource (addr : Z) : DlOp := fun h =>
  if EVE_DL_OPTIMIZE cfg then
    st ← EVE_DL_STATE h;
    if negb (addr =? PaletteSource st) then
      (EVE_CoCmd_dl (PALETTE_SOURCE addr) ;>
       assign_EVE_DL_STATE (with_PaletteSource addr)) h
    else Some h
  else
    EVE_CoCmd_dl (PALETTE_SOURCE addr) h.

Definition EVE_CoDl_vertexTranslateX (x : Z) : DlOp :=
  EVE_CoCmd_dl (VERTEX_TRANSLATE_X x).

Definition EVE_CoDl_vertexTranslateY (y : Z) : DlOp :=
  EVE_CoCmd_dl (VERTEX_TRANSLATE_Y y).

Definition EVE_CoDl_nop : DlOp := skip.

Definition EVE_CoDl_vertex2f_4 (x y : Z) : DlOp :=
  if (EVE_VERTEX2F_MAX <? x) || (EVE_VERTEX2F_MAX <? y) then
    EVE_CoDl_vertexFormat 3 ;>
    EVE_CoDl_vertex2f (to_int16 (Z.shiftr x 1)) (to_int16 (Z.shiftr y 1))
  else
    EVE_CoDl_vertexFormat 4 ;>
    EVE_CoDl_vertex2f x y.

Definition EVE_CoDl_vertex2f_2 (x y : Z) : DlOp :=
  EVE_CoDl_vertexFormat 2 ;>
  EVE_CoDl_vertex2f x y.

Definition EVE_CoDl_vertex2f_0 (x y : Z) : DlOp :=
  EVE_CoDl_vertexFormat 0 ;>
  EVE_CoDl_vertex2f x y.

End CoDl.

(** ** Calls and call sequences

    One constructor per function of the header, so that statements can
    quantify over every operation and over sequences of calls. *)

Inductive CoDlCall : Type :=
  | CoDl_display
  | CoDl_vertex2f (x y : Z)
  | CoDl_vertex2ii (x y handle cell : Z)
  | CoDl_bitmapSource (addr : Z)
  | CoDl_bitmapSource_ex (addr : Z) (flash : bool)
  | CoDl_clearColorRgb_ex (c : Z)
  | CoDl_clearColorRgb (r g b : Z)
  | CoDl_clearColorA (alpha : Z)
  | CoDl_clearColorArgb_ex (c : Z)
  | CoDl_tag (s : Z)
  | CoDl_colorRgb_ex (c : Z)
  | CoDl_colorRgb (r g b : Z)
  | CoDl_colorA (alpha : Z)
  | CoDl_colorArgb_ex (c : Z)
  | CoDl_bitmapHandle (handle : Z)
  | CoDl_cell (cell : Z)
  | CoDl_bitmapLayout (format linestride height : Z)
  | CoDl_bitmapSize (filter wrapx wrapy width height : Z)
  | CoDl_alphaFunc (func ref : Z)
  | CoDl_stencilFunc (func ref mask : Z)
  | CoDl_blendFunc (src dst : Z)
  | CoDl_blendFunc_default
  | CoDl_stencilOp (sfail spass : Z)
  | CoDl_pointSize (size : Z)
  | CoDl_lineWidth (width : Z)
  | CoDl_clearStencil (s : Z)
  | CoDl_clearTag (s : Z)
  | CoDl_stencilMask (mask : Z)
  | CoDl_tagMask (mask : bool)
  | CoDl_bitmapTransformA (v : Z)
  | CoDl_bitmapTransformA_ex (p : bool) (v : Z)
  | CoDl_bitmapTransformB (v : Z)
  | CoDl_bitmapTransformB_ex (p : bool) (v : Z)
  | CoDl_bitmapTransformC (v : Z)
  | CoDl_bitmapTransformD (v : Z)
  | CoDl_bitmapTransformD_ex (p : bool) (v : Z)
  | CoDl_bitmapTransformE (v : Z)
  | CoDl_bitmapTransformE_ex (p : bool) (v : Z)
  | CoDl_bitmapTransformF (v : Z)
  | CoDl_bitmapTransform_ex (p : bool) (a b c d e f : Z)
  | CoDl_bitmapTransform_identity
  | CoDl_scissorXY (x y : Z)
  | CoDl_scissorSize (width height : Z)
  | CoDl_call (dest : Z)
  | CoDl_jump (dest : Z)
  | CoDl_begin (prim : Z)
  | CoDl_colorMask (r g b a : bool)
  | CoDl_end
  | CoDl_saveContext
  | CoDl_restoreContext
  | CoDl_return
  | CoDl_macro (m : Z)
  | CoDl_clear (c s t : bool)
  | CoDl_vertexFormat (frac : Z)
  | CoDl_paletteSource (addr : Z)
  | CoDl_vertexTranslateX (x : Z)
  | CoDl_vertexTranslateY (y : Z)
  | CoDl_nop
  | CoDl_vertex2f_4 (x y : Z)
  | CoDl_vertex2f_2 (x y : Z)
  | CoDl_vertex2f_0 (x y : Z).

Section Calls.

Context (cfg : EVE_Config) (gpu : EVE_GpuDefs).

Definition exec (c : CoDlCall) : DlOp :=
  match c with
  | CoDl_display => EVE_CoDl_display
  | CoDl_vertex2f x y => EVE_CoDl_vertex2f x y
  | CoDl_vertex2ii x y handle cell => EVE_CoDl_vertex2ii x y handle cell
  | CoDl_bitmapSource addr => EVE_CoDl_bitmapSource addr
  | CoDl_bitmapSource_ex addr flash => EVE_CoDl_bitmapSource_ex addr flash
  | CoDl_clearColorRgb_ex c => EVE_CoDl_clearColorRgb_ex c
  | CoDl_clearColorRgb r g b => EVE_CoDl_clearColorRgb r g b
  | CoDl_clearColorA alpha => EVE_CoDl_clearColorA alpha
  | CoDl_clearColorArgb_ex c => EVE_CoDl_clearColorArgb_ex c
  | CoDl_tag s => EVE_CoDl_tag s
  | CoDl_colorRgb_ex c => EVE_CoDl_colorRgb_ex cfg c
  | CoDl_colorRgb r g b => EVE_CoDl_colorRgb cfg r g b
  | CoDl_colorA alpha => EVE_CoDl_colorA cfg alpha
  | CoDl_colorArgb_ex c => EVE_CoDl_colorArgb_ex cfg c
  | CoDl_bitmapHandle handle => EVE_CoDl_bitmapHandle cfg handle
  | CoDl_cell cell => EVE_CoDl_cell cfg cell
  | CoDl_bitmapLayout format linestride height =>
      EVE_CoDl_bitmapLayout format linestride height
  | CoDl_bitmapSize filter wrapx wrapy width height =>
      EVE_CoDl_bitmapSize filter wrapx wrapy width height
  | CoDl_alphaFunc func ref => EVE_CoDl_alphaFunc func ref
  | CoDl_stencilFunc func ref mask => EVE_CoDl_stencilFunc func ref mask
  | CoDl_blendFunc src dst => EVE_CoDl_blendFunc src dst
  | CoDl_blendFunc_default => EVE_CoDl_blendFunc_default gpu
  | CoDl_stencilOp sfail spass => EVE_CoDl_stencilOp sfail spass
  | CoDl_pointSize size => EVE_CoDl_pointSize cfg size
  | CoDl_lineWidth width => EVE_CoDl_lineWidth cfg width
  | CoDl_clearStencil s => EVE_CoDl_clearStencil s
  | CoDl_clearTag s => EVE_CoDl_clearTag s
  | CoDl_stencilMask mask => EVE_CoDl_stencilMask mask
  | CoDl_tagMask mask => EVE_CoDl_tagMask mask
  | CoDl_bitmapTransformA v => EVE_CoDl_bitmapTransformA cfg v
  | CoDl_bitmapTransformA_ex p v => EVE_CoDl_bitmapTransformA_ex cfg p v
  | CoDl_bitmapTransformB v => EVE_CoDl_bitmapTransformB cfg v
  | CoDl_bitmapTransformB_ex p v => EVE_CoDl_bitmapTransformB_ex cfg p v
  | CoDl_bitmapTransformC v => EVE_CoDl_bitmapTransformC cfg v
  | CoDl_bitmapTransformD v => EVE_CoDl_bitmapTransformD cfg v
  | CoDl_bitmapTransformD_ex p v => EVE_CoDl_bitmapTransformD_ex cfg p v
  | CoDl_bitmapTransformE v => EVE_CoDl_bitmapTransformE cfg v
  | CoDl_bitmapTransformE_ex p v => EVE_CoDl_bitmapTransformE_ex cfg p v
  | CoDl_bitmapTransformF v => EVE_CoDl_bitmapTransformF cfg v
  | CoDl_bitmapTransform_ex p a b c d e f =>
      EVE_CoDl_bitmapTransform_ex cfg p a b c d e f
  | CoDl_bitmapTransform_identity => EVE_CoDl_bitmapTransform_identity cfg
  | CoDl_scissorXY x y => EVE_CoDl_scissorXY cfg x y
  | CoDl_scissorSize width height => EVE_CoDl_scissorSize cfg width height
  | CoDl_call dest => EVE_CoDl_call dest
  | CoDl_jump dest => EVE_CoDl_jump dest
  | CoDl_begin prim => EVE_CoDl_begin cfg gpu prim
  | CoDl_colorMask r g b a => EVE_CoDl_colorMask r g b a
  | CoDl_end => EVE_CoDl_end cfg
  | CoDl_saveContext => EVE_CoDl_saveContext cfg
  | CoDl_restoreContext => EVE_CoDl_restoreContext cfg
  | CoDl_return => EVE_CoDl_return
  | CoDl_macro m => EVE_CoDl_macro m
  | CoDl_clear c s t => EVE_CoDl_clear c s t
  | CoDl_vertexFormat frac => EVE_CoDl_vertexFormat cfg frac
  | CoDl_paletteSource addr => EVE_CoDl_paletteSource cfg addr
  | CoDl_vertexTranslateX x => EVE_CoDl_vertexTranslateX x
  | CoDl_vertexTranslateY y => EVE_CoDl_vertexTranslateY y
  | CoDl_nop => EVE_CoDl_nop
  | CoDl_vertex2f_4 x y => EVE_CoDl_vertex2f_4 cfg x y
  | CoDl_vertex2f_2 x y => EVE_CoDl_vertex2f_2 cfg x y
  | CoDl_vertex2f_0 x y => EVE_CoDl_vertex2f_0 cfg x y
  end.

(** A sequence of calls, first call first. *)
Fixpoint run (cs : list CoDlCall) : DlOp :=
  match cs with
  | [] => skip
  | c :: cs' => exec c ;> run cs'
  end.

End Calls.

(** ** GLOBAL PROTOTYPES *)

(** Modelled from the spec: [EVE_CoDlImpl_resetDlState] is only declared in
    this header.  The spec (sections 3, 6 and 8) has it reinitialise the
    shadow state, the context stack and the primitive state to defaults,
    with the bitmap transform starting as the identity; the other default
    field values are not given and are the parameter [defaults]. *)
Definition EVE_CoDlImpl_resetDlState (defaults : EVE_HalDlState) : DlOp :=
  assign_DlStateIndex 0 ;>
  assign_DlState 0 (with_BitmapTransform false defaults) ;>
  assign_DlPrimitive 0.

(** ** Concrete inputs for evaluation *)

(** Both caches on, END not emitted, a four-slot stack. *)
Definition cfg_cached : EVE_Config :=
  {| EVE_DL_OPTIMIZE := true; EVE_DL_CACHE_SCISSOR := true;
     EVE_DL_END_PRIMITIVE := false;
     EVE_DL_STATE_STACK_SIZE := 4; EVE_DL_STATE_STACK_MASK := 3 |}.

(** No cache: every setter writes its word, END is written. *)
Definition cfg_uncached : EVE_Config :=
  {| EVE_DL_OPTIMIZE := false; EVE_DL_CACHE_SCISSOR := false;
     EVE_DL_END_PRIMITIVE := true;
     EVE_DL_STATE_STACK_SIZE := 4; EVE_DL_STATE_STACK_MASK := 3 |}.


Definition gpu_sample : EVE_GpuDefs :=
  {| LINE_STRIP := 4; EDGE_STRIP_R := 5; EDGE_STRIP_L := 6;
     EDGE_STRIP_A := 7; EDGE_STRIP_B := 8;
     SRC_ALPHA := 2; ONE_MINUS_SRC_ALPHA := 4 |}.

Definition st_sample : EVE_HalDlState :=
  {| PaletteSource := 0; ColorRGB := 0xFFFFFF; LineWidth := 16;
     PointSize := 16; ScissorX := 0; ScissorY := 0; ScissorWidth := 2048;
     ScissorHeight := 2048; ColorA := 255; Handle := 63; Cell := 0;
     VertexFormat := 4; BitmapTransform := false |}.

Definition host_sample : EVE_HalContext :=
  {| DlStateIndex := 0; DlPrimitive := 0;
     DlState := [st_sample; st_sample; st_sample; st_sample];
     CoCmdDl := [] |}.

(** ** Vocabulary of the statements *)

(** The context with one more word written, and with the active shadow
    state replaced. *)
Definition emit (w : DlWord) (h : EVE_HalContext) : EVE_HalContext :=
  {| DlStateIndex := DlStateIndex h; DlPrimitive := DlPrimitive h;
     DlState := DlState h; CoCmdDl := CoCmdDl h ++ [w] |}.

Definition put_state (s : EVE_HalDlState) (h : EVE_HalContext) : EVE_HalContext :=
  {| DlStateIndex := DlStateIndex h; DlPrimitive := DlPrimitive h;
     DlState := <[Z.to_nat (DlStateIndex h) := s]> (DlState h);
     CoCmdDl := CoCmdDl h |}.

(** The fields behind the cacheable setters, with the setter of each, the
    word it writes, and the value it compares and stores (the colour is
    masked to 24 bits first). *)
Inductive CachedField : Type :=
  | Cached_ColorRGB
  | Cached_ColorA
  | Cached_Handle
  | Cached_Cell
  | Cached_PointSize
  | Cached_LineWidth
  | Cached_VertexFormat
  | Cached_PaletteSource.

Definition field_get (f : CachedField) (s : EVE_HalDlState) : Z :=
  match f with
  | Cached_ColorRGB => ColorRGB s
  | Cached_ColorA => ColorA s
  | Cached_Handle => Handle s
  | Cached_Cell => Cell s
  | Cached_PointSize => PointSize s
  | Cached_LineWidth => LineWidth s
  | Cached_VertexFormat => VertexFormat s
  | Cached_PaletteSource => PaletteSource s
  end.

Definition field_with (f : CachedField) : Z -> EVE_HalDlState -> EVE_HalDlState :=
  match f with
  | Cached_ColorRGB => with_ColorRGB
  | Cached_ColorA => with_ColorA
  | Cached_Handle => with_Handle
  | Cached_Cell => with_Cell
  | Cached_PointSize => with_PointSize
  | Cached_LineWidth => with_LineWidth
  | Cached_VertexFormat => with_VertexFormat
  | Cached_PaletteSource => with_PaletteSource
  end.

Definition field_value (f : CachedField) (v : Z) : Z :=
  match f with
  | Cached_ColorRGB => Z.land v 0xFFFFFF
  | _ => v
  end.

Definition field_word (f : CachedField) (v : Z) : DlWord :=
  match f with
  | Cached_ColorRGB => WORD_OR (COLOR_RGB 0 0 0) (Z.land v 0xFFFFFF)
  | Cached_ColorA => COLOR_A v
  | Cached_Handle => BITMAP_HANDLE v
  | Cached_Cell => CELL v
  | Cached_PointSize => POINT_SIZE v
  | Cached_LineWidth => LINE_WIDTH v
  | Cached_VertexFormat => VERTEX_FORMAT v
  | Cached_PaletteSource => PALETTE_SOURCE v
  end.

Definition field_call (f : CachedField) (v : Z) : CoDlCall :=
  match f with
  | Cached_ColorRGB => CoDl_colorRgb_ex v
  | Cached_ColorA => CoDl_colorA v
  | Cached_Handle => CoDl_bitmapHandle v
  | Cached_Cell => CoDl_cell v
  | Cached_PointSize => CoDl_pointSize v
  | Cached_LineWidth => CoDl_lineWidth v
  | Cached_VertexFormat => CoDl_vertexFormat v
  | Cached_PaletteSource => CoDl_paletteSource v
  end.

(** The common shape of the eight cacheable setters. *)
Definition cached_setter (cfg : EVE_Config) (f : CachedField) (v : Z) : DlOp :=
  fun h =>
    if EVE_DL_OPTIMIZE cfg then
      st ← EVE_DL_STATE h;
      if negb (field_value f v =? field_get f st) then
        (EVE_CoCmd_dl (field_word f v) ;>
         assign_EVE_DL_STATE (field_with f (field_value f v))) h
      else Some h
    else
      EVE_CoCmd_dl (field_word f v) h.

(** The stack of shadow states is compiled in when either cache is on. *)
Definition has_dl_state (cfg : EVE_Config) : bool :=
  EVE_DL_OPTIMIZE cfg || EVE_DL_CACHE_SCISSOR cfg.

(** The stack size is a power of two that a [uint8_t] index can address,
    and the mask is the size minus one. *)
Definition stack_pow2 (cfg : EVE_Config) (k : Z) : Prop :=
  0 <= k <= 8 /\
  EVE_DL_STATE_STACK_SIZE cfg = 2 ^ k /\
  EVE_DL_STATE_STACK_MASK cfg = 2 ^ k - 1.

(** The snapshot array has its declared size and the index is inside it. *)
Definition wf_host (cfg : EVE_Config) (h : EVE_HalContext) : Prop :=
  Z.of_nat (length (DlState h)) = EVE_DL_STATE_STACK_SIZE cfg /\
  0 <= DlStateIndex h < EVE_DL_STATE_STACK_SIZE cfg.

(** The index addresses a slot of the array. *)
Definition live (h : EVE_HalContext) : Prop :=
  0 <= DlStateIndex h < Z.of_nat (length (DlState h)).

(** What a call other than save, restore, begin and end may change: the
    active slot and the display list, which only grows. *)
Definition frame (h h' : EVE_HalContext) : Prop :=
  DlStateIndex h' = DlStateIndex h /\
  DlPrimitive h' = DlPrimitive h /\
  length (DlState h') = length (DlState h) /\
  (forall j : Z, j <> DlStateIndex h ->
     array_get (DlState h') j = array_get (DlState h) j) /\
  exists ws : list DlWord, CoCmdDl h' = CoCmdDl h ++ ws.

(** A transformer that succeeds on every context with a live index and
    stays within [frame]. *)
Definition framed (f : DlOp) : Prop :=
  forall h : EVE_HalContext, live h ->
    exists h' : EVE_HalContext, f h = Some h' /\ frame h h'.

Definition is_context_call (c : CoDlCall) : bool :=
  match c with
  | CoDl_saveContext | CoDl_restoreContext => true
  | _ => false
  end.

Definition is_primitive_call (c : CoDlCall) : bool :=
  match c with
  | CoDl_begin _ | CoDl_end => true
  | _ => false
  end.

(** The calls that may be interleaved with saves and restores: every setter
    (and every call that only writes words). *)
Definition is_setter (c : CoDlCall) : bool :=
  negb (is_context_call c) && negb (is_primitive_call c).

(** [N] saves, the [i]-th followed by the setters of the [i]-th block, and
    [N] restores, the [i]-th preceded by the setters of the [i]-th block. *)
Definition save_phase (blocks : list (list CoDlCall)) : list CoDlCall :=
  concat (map (fun b => CoDl_saveContext :: b) blocks).

Definition restore_phase (blocks : list (list CoDlCall)) : list CoDlCall :=
  concat (map (fun b => b ++ [CoDl_restoreContext]) blocks).

(** The invariant of a nest of saves below the slot [i0]: the context is
    [d] saves deep, and the slot [i0] still holds [s0]. *)
Definition at_depth (cfg : EVE_Config) (i0 : Z) (s0 : EVE_HalDlState) (p0 : Z)
    (d : Z) (h : EVE_HalContext) : Prop :=
  wf_host cfg h /\
  DlStateIndex h = (i0 + d) mod EVE_DL_STATE_STACK_SIZE cfg /\
  array_get (DlState h) i0 = Some s0 /\
  DlPrimitive h = p0.

(** Setter blocks for three nested saves and restores, and for four saves
    on the four-slot stack with one setter after the first save. *)
Definition save_blocks_sample : list (list CoDlCall) :=
  [[CoDl_colorA 5; CoDl_scissorXY 10 20]; [CoDl_cell 1]; []].

Definition restore_blocks_sample : list (list CoDlCall) :=
  [[CoDl_vertex2f_4 20000 0]; []; [CoDl_pointSize 32]].

Definition save_blocks_wrap : list (list CoDlCall) :=
  [[CoDl_colorA 5]; []; []; []].

Definition restore_blocks_wrap : list (list CoDlCall) :=
  [[]; []; []; []].

(** Five saves and seven restores on the four-slot stack. *)
Definition over_push_pop : list CoDlCall :=
  repeat CoDl_saveContext 5 ++ [CoDl_colorA 7] ++ repeat CoDl_restoreContext 7.

(** The words of a call of the vertex-format setter followed by a vertex:
    the format word is absent exactly when the cache already holds it. *)
Definition format_and_vertex_words (cfg : EVE_Config) (st : EVE_HalDlState)
    (frac x y : Z) : list DlWord :=
  (if EVE_DL_OPTIMIZE cfg && (frac =? VertexFormat st) then []
   else [VERTEX_FORMAT frac])
  ++ [VERTEX2F x y].

(** The context with the active primitive replaced. *)
Definition put_primitive (v : Z) (h : EVE_HalContext) : EVE_HalContext :=
  {| DlStateIndex := DlStateIndex h; DlPrimitive := v;
     DlState := DlState h; CoCmdDl := CoCmdDl h |}.

(** The ten setters of one coefficient of the bitmap transform, and the
    common shape of their bodies. *)
Definition is_coefficient_setter (c : CoDlCall) : bool :=
  match c with
  | CoDl_bitmapTransformA _ | CoDl_bitmapTransformA_ex _ _
  | CoDl_bitmapTransformB _ | CoDl_bitmapTransformB_ex _ _
  | CoDl_bitmapTransformC _
  | CoDl_bitmapTransformD _ | CoDl_bitmapTransformD_ex _ _
  | CoDl_bitmapTransformE _ | CoDl_bitmapTransformE_ex _ _
  | CoDl_bitmapTransformF _ => true
  | _ => false
  end.

Definition coefficient_word (c : CoDlCall) : DlWord :=
  match c with
  | CoDl_bitmapTransformA v => BITMAP_TRANSFORM_A v
  | CoDl_bitmapTransformA_ex p v => BITMAP_TRANSFORM_A_EXT p v
  | CoDl_bitmapTransformB v => BITMAP_TRANSFORM_B v
  | CoDl_bitmapTransformB_ex p v => BITMAP_TRANSFORM_B_EXT p v
  | CoDl_bitmapTransformC v => BITMAP_TRANSFORM_C v
  | CoDl_bitmapTransformD v => BITMAP_TRANSFORM_D v
  | CoDl_bitmapTransformD_ex p v => BITMAP_TRANSFORM_D_EXT p v
  | CoDl_bitmapTransformE v => BITMAP_TRANSFORM_E v
  | CoDl_bitmapTransformE_ex p v => BITMAP_TRANSFORM_E_EXT p v
  | CoDl_bitmapTransformF v => BITMAP_TRANSFORM_F v
  | _ => DISPLAY
  end.

Definition coefficient_setter (cfg : EVE_Config) (w : DlWord) : DlOp :=
  EVE_CoCmd_dl w ;>
  when (EVE_DL_OPTIMIZE cfg) (assign_EVE_DL_STATE (with_BitmapTransform true)).

(** The six words of the identity transform: A = 256, B = 0, C = 0, D = 0,
    E = 256, F = 0. *)
Definition identity_words : list DlWord :=
  [BITMAP_TRANSFORM_A_EXT false 256; BITMAP_TRANSFORM_B_EXT false 0;
   BITMAP_TRANSFORM_C 0; BITMAP_TRANSFORM_D_EXT false 0;
   BITMAP_TRANSFORM_E_EXT false 256; BITMAP_TRANSFORM_F 0].

(** No cache and no explicit END. *)
Definition cfg_plain : EVE_Config :=
  {| EVE_DL_OPTIMIZE := false; EVE_DL_CACHE_SCISSOR := false;
     EVE_DL_END_PRIMITIVE := false;
     EVE_DL_STATE_STACK_SIZE := 4; EVE_DL_STATE_STACK_MASK := 3 |}.

(** Both caches and explicit END. *)
Definition cfg_cached_end : EVE_Config :=
  {| EVE_DL_OPTIMIZE := true; EVE_DL_CACHE_SCISSOR := true;
     EVE_DL_END_PRIMITIVE := true;
     EVE_DL_STATE_STACK_SIZE := 4; EVE_DL_STATE_STACK_MASK := 3 |}.

(** A context with a primitive open that is none of the continuous ones. *)
Definition host_rects : EVE_HalContext := put_primitive 9 host_sample.

(** The words in the body of each function, in the order it writes them
    when nothing is suppressed. *)
Definition full_words (gpu : EVE_GpuDefs) (c : CoDlCall) : list DlWord :=
  match c with
  | CoDl_display => [DISPLAY]
  | CoDl_vertex2f x y => [VERTEX2F x y]
  | CoDl_vertex2ii x y handle cell => [VERTEX2II x y handle cell]
  | CoDl_bitmapSource addr => [BITMAP_SOURCE addr]
  | CoDl_bitmapSource_ex addr flash => [BITMAP_SOURCE2 flash addr]
  | CoDl_clearColorRgb_ex c => [WORD_OR (CLEAR_COLOR_RGB 0 0 0) (Z.land c 0xFFFFFF)]
  | CoDl_clearColorRgb r g b => [CLEAR_COLOR_RGB r g b]
  | CoDl_clearColorA alpha => [CLEAR_COLOR_A alpha]
  | CoDl_clearColorArgb_ex c =>
      [WORD_OR (CLEAR_COLOR_RGB 0 0 0) (Z.land c 0xFFFFFF);
       CLEAR_COLOR_A (to_uint8 (Z.shiftr c 24))]
  | CoDl_tag s => [TAG s]
  | CoDl_colorRgb_ex c => [WORD_OR (COLOR_RGB 0 0 0) (Z.land c 0xFFFFFF)]
  | CoDl_colorRgb r g b =>
      [WORD_OR (COLOR_RGB 0 0 0)
         (Z.land (Z.lor (Z.lor (Z.shiftl r 16) (Z.shiftl g 8)) b) 0xFFFFFF)]
  | CoDl_colorA alpha => [COLOR_A alpha]
  | CoDl_colorArgb_ex c =>
      [WORD_OR (COLOR_RGB 0 0 0) (Z.land c 0xFFFFFF);
       COLOR_A (to_uint8 (Z.shiftr c 24))]
  | CoDl_bitmapHandle handle => [BITMAP_HANDLE handle]
  | CoDl_cell cell => [CELL cell]
  | CoDl_bitmapLayout format linestride height =>
      [BITMAP_LAYOUT_H (Z.shiftr linestride 10) (Z.shiftr height 9);
       BITMAP_LAYOUT format linestride height]
  | CoDl_bitmapSize filter wrapx wrapy width height =>
      [BITMAP_SIZE_H (Z.shiftr width 9) (Z.shiftr height 9);
       BITMAP_SIZE filter wrapx wrapy width height]
  | CoDl_alphaFunc func ref => [ALPHA_FUNC func ref]
  | CoDl_stencilFunc func ref mask => [STENCIL_FUNC func ref mask]
  | CoDl_blendFunc src dst => [BLEND_FUNC src dst]
  | CoDl_blendFunc_default =>
      [BLEND_FUNC (SRC_ALPHA gpu) (ONE_MINUS_SRC_ALPHA gpu)]
  | CoDl_stencilOp sfail spass => [STENCIL_OP sfail spass]
  | CoDl_pointSize size => [POINT_SIZE size]
  | CoDl_lineWidth width => [LINE_WIDTH width]
  | CoDl_clearStencil s => [CLEAR_STENCIL s]
  | CoDl_clearTag s => [CLEAR_TAG s]
  | CoDl_stencilMask mask => [STENCIL_MASK mask]
  | CoDl_tagMask mask => [TAG_MASK mask]
  | CoDl_bitmapTransformA v => [BITMAP_TRANSFORM_A v]
  | CoDl_bitmapTransformA_ex p v => [BITMAP_TRANSFORM_A_EXT p v]
  | CoDl_bitmapTransformB v => [BITMAP_TRANSFORM_B v]
  | CoDl_bitmapTransformB_ex p v => [BITMAP_TRANSFORM_B_EXT p v]
  | CoDl_bitmapTransformC v => [BITMAP_TRANSFORM_C v]
  | CoDl_bitmapTransformD v => [BITMAP_TRANSFORM_D v]
  | CoDl_bitmapTransformD_ex p v => [BITMAP_TRANSFORM_D_EXT p v]
  | CoDl_bitmapTransformE v => [BITMAP_TRANSFORM_E v]
  | CoDl_bitmapTransformE_ex p v => [BITMAP_TRANSFORM_E_EXT p v]
  | CoDl_bitmapTransformF v => [BITMAP_TRANSFORM_F v]
  | CoDl_bitmapTransform_ex p a b c d e f =>
      [BITMAP_TRANSFORM_A_EXT p a; BITMAP_TRANSFORM_B_EXT p b;
       BITMAP_TRANSFORM_C c; BITMAP_TRANSFORM_D_EXT p d;
       BITMAP_TRANSFORM_E_EXT p e; BITMAP_TRANSFORM_F f]
  | CoDl_bitmapTransform_identity => identity_words
  | CoDl_scissorXY x y => [SCISSOR_XY x y]
  | CoDl_scissorSize width height => [SCISSOR_SIZE width height]
  | CoDl_call dest => [CALL dest]
  | CoDl_jump dest => [JUMP dest]
  | CoDl_begin prim => [BEGIN prim]
  | CoDl_colorMask r g b a => [COLOR_MASK r g b a]
  | CoDl_end => [END]
  | CoDl_saveContext => [SAVE_CONTEXT]
  | CoDl_restoreContext => [RESTORE_CONTEXT]
  | CoDl_return => [RETURN]
  | CoDl_macro m => [MACRO m]
  | CoDl_clear c s t => [CLEAR c s t]
  | CoDl_vertexFormat frac => [VERTEX_FORMAT frac]
  | CoDl_paletteSource addr => [PALETTE_SOURCE addr]
  | CoDl_vertexTranslateX x => [VERTEX_TRANSLATE_X x]
  | CoDl_vertexTranslateY y => [VERTEX_TRANSLATE_Y y]
  | CoDl_nop => []
  | CoDl_vertex2f_4 x y =>
      if (EVE_VERTEX2F_MAX <? x) || (EVE_VERTEX2F_MAX <? y)
      then [VERTEX_FORMAT 3;
            VERTEX2F (to_int16 (Z.shiftr x 1)) (to_int16 (Z.shiftr y 1))]
      else [VERTEX_FORMAT 4; VERTEX2F x y]
  | CoDl_vertex2f_2 x y => [VERTEX_FORMAT 2; VERTEX2F x y]
  | CoDl_vertex2f_0 x y => [VERTEX_FORMAT 0; VERTEX2F x y]
  end.

(** A framed transformer whose words are a subsequence of [ws], and all of
    [ws] when caching is off. *)
Definition expands (cfg : EVE_Config) (f : DlOp) (ws : list DlWord) : Prop :=
  forall h : EVE_HalContext, live h ->
    exists (h' : EVE_HalContext) (ws' : list DlWord),
      f h = Some h' /\ frame h h' /\
      CoCmdDl h' = CoCmdDl h ++ ws' /\
      sublist ws' ws /\
      (EVE_DL_OPTIMIZE cfg = false -> ws' = ws).

(** The functions whose body is only calls of [EVE_CoCmd_dl]. *)
Definition is_write_only (c : CoDlCall) : bool :=
  match c with
  | CoDl_display | CoDl_vertex2f _ _ | CoDl_vertex2ii _ _ _ _
  | CoDl_bitmapSource _ | CoDl_bitmapSource_ex _ _
  | CoDl_clearColorRgb_ex _ | CoDl_clearColorRgb _ _ _ | CoDl_clearColorA _
  | CoDl_clearColorArgb_ex _ | CoDl_tag _
  | CoDl_bitmapLayout _ _ _ | CoDl_bitmapSize _ _ _ _ _
  | CoDl_alphaFunc _ _ | CoDl_stencilFunc _ _ _ | CoDl_blendFunc _ _
  | CoDl_blendFunc_default | CoDl_stencilOp _ _
  | CoDl_clearStencil _ | CoDl_clearTag _ | CoDl_stencilMask _
  | CoDl_tagMask _ | CoDl_call _ | CoDl_jump _ | CoDl_colorMask _ _ _ _
  | CoDl_return | CoDl_macro _ | CoDl_clear _ _ _
  | CoDl_vertexTranslateX _ | CoDl_vertexTranslateY _ | CoDl_nop => true
  | _ => false
  end.

(** The context with the words [ws] written after those it has. *)
Definition emit_all (ws : list DlWord) (h : EVE_HalContext) : EVE_HalContext :=
  {| DlStateIndex := DlStateIndex h; DlPrimitive := DlPrimitive h;
     DlState := DlState h; CoCmdDl := CoCmdDl h ++ ws |}.

(** A context whose snapshot array is empty and whose index is far off. *)
Definition host_no_state : EVE_HalContext :=
  {| DlStateIndex := 200; DlPrimitive := 0; DlState := []; CoCmdDl := [] |}.

(** A mixed sequence of calls. *)
Definition calls_sample : list CoDlCall :=
  [CoDl_colorA 255; CoDl_colorArgb_ex 0x80FFFFFF; CoDl_begin 9;
   CoDl_vertex2f_4 100 100; CoDl_vertex2f_4 200 100; CoDl_end;
   CoDl_saveContext; CoDl_bitmapTransform_identity; CoDl_scissorXY 0 0;
   CoDl_restoreContext; CoDl_clear true true true].

(** The 24-bit colour of three 8-bit components. *)
Definition rgb24 (r g b : Z) : Z := r * 65536 + g * 256 + b.

Definition is_uint8 (z : Z) : Prop := 0 <= z < 256.
Definition is_uint32 (z : Z) : Prop := 0 <= z < 4294967296.

(** The word a cacheable setter writes from a state [st]: none when the
    value is the cached one. *)
Definition setter_words (f : CachedField) (v : Z) (st : EVE_HalDlState) :
    list DlWord :=
  if field_get f st =? field_value f v then [] else [field_word f v].

(** The three fixed-point vertex functions, the vertex format each asks
    for, and the vertex word each writes. *)
Definition is_fixed_point_vertex (c : CoDlCall) : bool :=
  match c with
  | CoDl_vertex2f_4 _ _ | CoDl_vertex2f_2 _ _ | CoDl_vertex2f_0 _ _ => true
  | _ => false
  end.

Definition vertex_format_of (c : CoDlCall) : Z :=
  match c with
  | CoDl_vertex2f_4 x y =>
      if (EVE_VERTEX2F_MAX <? x) || (EVE_VERTEX2F_MAX <? y) then 3 else 4
  | CoDl_vertex2f_2 _ _ => 2
  | _ => 0
  end.

Definition vertex_word_of (c : CoDlCall) : DlWord :=
  match c with
  | CoDl_vertex2f_4 x y =>
      if (EVE_VERTEX2F_MAX <? x) || (EVE_VERTEX2F_MAX <? y)
      then VERTEX2F (to_int16 (Z.shiftr x 1)) (to_int16 (Z.shiftr y 1))
      else VERTEX2F x y
  | CoDl_vertex2f_2 x y | CoDl_vertex2f_0 x y => VERTEX2F x y
  | _ => DISPLAY
  end.

(** ** Basic facts *)

Lemma array_get_Some {A : Type} (a : list A) (i : Z) (x : A) :
  array_get a i = Some x <-> 0 <= i /\ a !! Z.to_nat i = Some x.
Proof.
  unfold array_get. destruct (Z.leb_spec 0 i); split; intros H0.
  - split; [lia | exact H0].
  - apply H0.
  - discriminate.
  - lia.
Qed.

Lemma array_get_bounds {A : Type} (a : list A) (i : Z) (x : A) :
  array_get a i = Some x -> 0 <= i < Z.of_nat (length a).
Proof.
  intros [Hi Hl]%array_get_Some. apply lookup_lt_Some in Hl. lia.
Qed.

Lemma array_get_is_Some {A : Type} (a : list A) (i : Z) :
  0 <= i < Z.of_nat (length a) -> exists x, array_get a i = Some x.
Proof.
  intros Hi. destruct (lookup_lt_is_Some_2 a (Z.to_nat i)) as [x Hx]; [lia |].
  exists x. apply array_get_Some. split; [lia | exact Hx].
Qed.

Lemma array_set_Some {A : Type} (a : list A) (i : Z) (x : A) :
  0 <= i < Z.of_nat (length a) ->
  array_set a i x = Some (<[Z.to_nat i := x]> a).
Proof.
  intros [H0 H1]. unfold array_set.
  destruct (Z.leb_spec 0 i); [| lia].
  destruct (Z.ltb_spec i (Z.of_nat (length a))); [reflexivity | lia].
Qed.

Lemma array_get_insert_eq {A : Type} (a : list A) (i : Z) (x : A) :
  0 <= i < Z.of_nat (length a) ->
  array_get (<[Z.to_nat i := x]> a) i = Some x.
Proof.
  intros Hi. apply array_get_Some. split; [lia |].
  apply list_lookup_insert_eq. lia.
Qed.

Lemma array_get_insert_ne {A : Type} (a : list A) (i j : Z) (x : A) :
  0 <= i -> i <> j ->
  array_get (<[Z.to_nat i := x]> a) j = array_get a j.
Proof.
  intros Hi Hne. unfold array_get. destruct (Z.leb_spec 0 j); [| reflexivity].
  apply list_lookup_insert_ne. lia.
Qed.

Lemma EVE_DL_STATE_emit (w : DlWord) (h : EVE_HalContext) :
  EVE_DL_STATE (emit w h) = EVE_DL_STATE h.
Proof. reflexivity. Qed.

Lemma EVE_DL_STATE_put_state (s st : EVE_HalDlState) (h : EVE_HalContext) :
  EVE_DL_STATE h = Some st -> EVE_DL_STATE (put_state s h) = Some s.
Proof.
  intros H. apply array_get_bounds in H.
  unfold EVE_DL_STATE, put_state; simpl. apply array_get_insert_eq, H.
Qed.

Lemma put_state_same (st : EVE_HalDlState) (h : EVE_HalContext) :
  EVE_DL_STATE h = Some st -> put_state st h = h.
Proof.
  intros [_ H]%array_get_Some. destruct h as [i p a d]; simpl in *.
  unfold put_state; simpl. f_equal. apply list_insert_id, H.
Qed.


Lemma EVE_CoCmd_dl_eq (w : DlWord) (h : EVE_HalContext) :
  EVE_CoCmd_dl w h = Some (emit w h).
Proof. reflexivity. Qed.

Lemma assign_EVE_DL_STATE_eq (upd : EVE_HalDlState -> EVE_HalDlState)
    (h : EVE_HalContext) (st : EVE_HalDlState) :
  EVE_DL_STATE h = Some st ->
  assign_EVE_DL_STATE upd h = Some (put_state (upd st) h).
Proof.
  intros H. unfold assign_EVE_DL_STATE. rewrite H; simpl.
  apply array_get_bounds in H. rewrite array_set_Some by exact H.
  reflexivity.
Qed.


(** ** The cacheable setters (spec section 4.1) *)

Lemma exec_field_call (cfg : EVE_Config) (gpu : EVE_GpuDefs)
    (f : CachedField) (v : Z) :
  exec cfg gpu (field_call f v) = cached_setter cfg f v.
Proof. destruct f; reflexivity. Qed.



(** The argument of every setter but the colour is stored as it is, and so
    is a colour that fits 24 bits. *)
Lemma field_value_in_range (f : CachedField) (v : Z) :
  (f = Cached_ColorRGB -> 0 <= v < 2 ^ 24) -> field_value f v = v.
Proof.
  destruct f; simpl; intros H; try reflexivity.
  change 16777215 with (Z.ones 24). rewrite Z.land_ones by lia.
  apply Z.mod_small, H. reflexivity.
Qed.

Lemma cached_setter_hit (cfg : EVE_Config) (f : CachedField) (v : Z)
    (h : EVE_HalContext) (st : EVE_HalDlState) :
  EVE_DL_OPTIMIZE cfg = true ->
  EVE_DL_STATE h = Some st ->
  field_get f st = field_value f v ->
  cached_setter cfg f v h = Some h.
Proof.
  intros Hopt Hst Heq. unfold cached_setter. rewrite Hopt, Hst; simpl.
  rewrite Heq, Z.eqb_refl. reflexivity.
Qed.

Lemma cached_setter_miss (cfg : EVE_Config) (f : CachedField) (v : Z)
    (h : EVE_HalContext) (st : EVE_HalDlState) :
  EVE_DL_OPTIMIZE cfg = true ->
  EVE_DL_STATE h = Some st ->
  field_get f st <> field_value f v ->
  cached_setter cfg f v h =
    Some (put_state (field_with f (field_value f v) st) (emit (field_word f v) h)).
Proof.
  intros Hopt Hst Hne. unfold cached_setter. rewrite Hopt, Hst; simpl.
  destruct (Z.eqb_spec (field_value f v) (field_get f st)) as [E | _];
    [congruence |]. simpl.
  unfold seq_op. rewrite EVE_CoCmd_dl_eq; simpl.
  apply assign_EVE_DL_STATE_eq. rewrite EVE_DL_STATE_emit. exact Hst.
Qed.

Lemma cached_setter_uncached (cfg : EVE_Config) (f : CachedField) (v : Z)
    (h : EVE_HalContext) :
  EVE_DL_OPTIMIZE cfg = false ->
  cached_setter cfg f v h = Some (emit (field_word f v) h).
Proof. intros Hopt. unfold cached_setter. rewrite Hopt. reflexivity. Qed.







(** ** Framing: what the calls leave alone *)

Lemma live_EVE_DL_STATE (h : EVE_HalContext) :
  live h <-> exists st, EVE_DL_STATE h = Some st.
Proof.
  split.
  - intros H. apply array_get_is_Some, H.
  - intros [st H]. apply array_get_bounds in H. exact H.
Qed.

Lemma wf_host_live (cfg : EVE_Config) (h : EVE_HalContext) :
  wf_host cfg h -> live h.
Proof. intros [Hl Hi]. unfold live. lia. Qed.

Lemma frame_refl (h : EVE_HalContext) : frame h h.
Proof.
  repeat split. exists []. symmetry. apply app_nil_r.
Qed.

Lemma frame_trans (h1 h2 h3 : EVE_HalContext) :
  frame h1 h2 -> frame h2 h3 -> frame h1 h3.
Proof.
  intros (Hi & Hp & Hl & Hs & ws & Hw) (Hi' & Hp' & Hl' & Hs' & ws' & Hw').
  repeat split; try congruence.
  - intros j Hj. rewrite Hs' by congruence. apply Hs, Hj.
  - exists (ws ++ ws'). rewrite Hw', Hw. symmetry. apply app_assoc.
Qed.

Lemma frame_live (h h' : EVE_HalContext) : frame h h' -> live h -> live h'.
Proof. intros (Hi & _ & Hl & _) H. unfold live in *. rewrite Hi, Hl. exact H. Qed.

Lemma frame_wf_host (cfg : EVE_Config) (h h' : EVE_HalContext) :
  frame h h' -> wf_host cfg h -> wf_host cfg h'.
Proof.
  intros (Hi & _ & Hl & _) H. unfold wf_host in *. rewrite Hi, Hl. exact H.
Qed.

Lemma frame_emit (w : DlWord) (h : EVE_HalContext) : frame h (emit w h).
Proof. repeat split. exists [w]. reflexivity. Qed.

Lemma frame_put_state (s : EVE_HalDlState) (h : EVE_HalContext) :
  live h -> frame h (put_state s h).
Proof.
  intros Hl. repeat split; simpl.
  - apply length_insert.
  - intros j Hj. apply array_get_insert_ne; [apply Hl | congruence].
  - exists []. symmetry. apply app_nil_r.
Qed.

Lemma framed_skip : framed skip.
Proof. intros h _. exists h. split; [reflexivity | apply frame_refl]. Qed.

Lemma framed_EVE_CoCmd_dl (w : DlWord) : framed (EVE_CoCmd_dl w).
Proof. intros h _. exists (emit w h). split; [reflexivity | apply frame_emit]. Qed.

Lemma framed_assign_EVE_DL_STATE (upd : EVE_HalDlState -> EVE_HalDlState) :
  framed (assign_EVE_DL_STATE upd).
Proof.
  intros h Hl. destruct (proj1 (live_EVE_DL_STATE h) Hl) as [st Hst].
  exists (put_state (upd st) h). split.
  - apply assign_EVE_DL_STATE_eq, Hst.
  - apply frame_put_state, Hl.
Qed.

Lemma framed_seq (f g : DlOp) : framed f -> framed g -> framed (f ;> g).
Proof.
  intros Hf Hg h Hl. destruct (Hf h Hl) as (h1 & H1 & F1).
  destruct (Hg h1 (frame_live _ _ F1 Hl)) as (h2 & H2 & F2).
  exists h2. split.
  - unfold seq_op. rewrite H1. exact H2.
  - eapply frame_trans; eassumption.
Qed.

Lemma framed_when (b : bool) (f : DlOp) : framed f -> framed (when b f).
Proof. intros Hf. destruct b; [exact Hf | apply framed_skip]. Qed.

(** The shape of a function that tests the active shadow state under
    [#if]: [if b then (if test(EVE_DL_STATE) then f) else g]. *)
Lemma framed_guarded (b : bool) (test : EVE_HalDlState -> bool) (f g : DlOp) :
  framed f -> framed g ->
  framed (fun h =>
            if b then st ← EVE_DL_STATE h; if test st then f h else Some h
            else g h).
Proof.
  intros Hf Hg h Hl. destruct b; [| apply Hg, Hl].
  destruct (proj1 (live_EVE_DL_STATE h) Hl) as [st Hst]. rewrite Hst; simpl.
  destruct (test st); [apply Hf, Hl |].
  exists h. split; [reflexivity | apply frame_refl].
Qed.

Create HintDb framed discriminated.

#[local] Hint Resolve framed_skip framed_EVE_CoCmd_dl framed_assign_EVE_DL_STATE
  framed_seq framed_when : framed.

Lemma framed_cached_setter (cfg : EVE_Config) (f : CachedField) (v : Z) :
  framed (cached_setter cfg f v).
Proof.
  unfold cached_setter.
  apply (framed_guarded _ (fun st => negb (field_value f v =? field_get f st)));
    auto with framed.
Qed.

Lemma framed_bitmapTransform_identity (cfg : EVE_Config) :
  framed (EVE_CoDl_bitmapTransform_identity cfg).
Proof.
  unfold EVE_CoDl_bitmapTransform_identity.
  apply (framed_guarded _ BitmapTransform);
    unfold bitmapTransform_identity_calls, EVE_CoDl_bitmapTransformA_ex,
      EVE_CoDl_bitmapTransformB_ex, EVE_CoDl_bitmapTransformC,
      EVE_CoDl_bitmapTransformD_ex, EVE_CoDl_bitmapTransformE_ex,
      EVE_CoDl_bitmapTransformF; auto 20 with framed.
Qed.

Lemma framed_scissorXY (cfg : EVE_Config) (x y : Z) :
  framed (EVE_CoDl_scissorXY cfg x y).
Proof.
  unfold EVE_CoDl_scissorXY.
  apply (framed_guarded _
           (fun st => negb (ScissorX st =? x) || negb (ScissorY st =? y)));
    auto 10 with framed.
Qed.

Lemma framed_scissorSize (cfg : EVE_Config) (width height : Z) :
  framed (EVE_CoDl_scissorSize cfg width height).
Proof.
  unfold EVE_CoDl_scissorSize.
  apply (framed_guarded _
           (fun st => negb (ScissorWidth st =? width)
                      || negb (ScissorHeight st =? height)));
    auto 10 with framed.
Qed.

(** Every call that is not a save, restore, begin or end is framed. *)
Lemma framed_exec (cfg : EVE_Config) (gpu : EVE_GpuDefs) (c : CoDlCall) :
  is_setter c = true -> framed (exec cfg gpu c).
Proof.
  pose proof (framed_cached_setter cfg) as Hc.
  pose proof (exec_field_call cfg gpu) as He.
  destruct c; intros Hs; try discriminate Hs; simpl;
    try (unfold EVE_CoDl_display, EVE_CoDl_vertex2f, EVE_CoDl_vertex2ii,
           EVE_CoDl_bitmapSource, EVE_CoDl_bitmapSource_ex,
           EVE_CoDl_clearColorRgb_ex, EVE_CoDl_clearColorRgb,
           EVE_CoDl_clearColorA, EVE_CoDl_clearColorArgb_ex, EVE_CoDl_tag,
           EVE_CoDl_bitmapLayout, EVE_CoDl_bitmapSize, EVE_CoDl_alphaFunc,
           EVE_CoDl_stencilFunc, EVE_CoDl_blendFunc_default, EVE_CoDl_blendFunc,
           EVE_CoDl_stencilOp, EVE_CoDl_clearStencil, EVE_CoDl_clearTag,
           EVE_CoDl_stencilMask, EVE_CoDl_tagMask, EVE_CoDl_call, EVE_CoDl_jump,
           EVE_CoDl_colorMask, EVE_CoDl_return, EVE_CoDl_macro, EVE_CoDl_clear,
           EVE_CoDl_vertexTranslateX, EVE_CoDl_vertexTranslateY, EVE_CoDl_nop,
           EVE_CoDl_clearColorRgb_ex, EVE_CoDl_clearColorA;
         solve [auto 10 with framed]);
    try (unfold EVE_CoDl_bitmapTransform_ex, EVE_CoDl_bitmapTransformA,
           EVE_CoDl_bitmapTransformA_ex, EVE_CoDl_bitmapTransformB,
           EVE_CoDl_bitmapTransformB_ex, EVE_CoDl_bitmapTransformC,
           EVE_CoDl_bitmapTransformD, EVE_CoDl_bitmapTransformD_ex,
           EVE_CoDl_bitmapTransformE, EVE_CoDl_bitmapTransformE_ex,
           EVE_CoDl_bitmapTransformF; solve [auto 20 with framed]).
  - apply (Hc Cached_ColorRGB).
  - apply (Hc Cached_ColorRGB).
  - apply (Hc Cached_ColorA).
  - apply framed_seq; [apply (Hc Cached_ColorRGB) | apply (Hc Cached_ColorA)].
  - apply (Hc Cached_Handle).
  - apply (Hc Cached_Cell).
  - apply (Hc Cached_PointSize).
  - apply (Hc Cached_LineWidth).
  - apply framed_bitmapTransform_identity.
  - apply framed_scissorXY.
  - apply framed_scissorSize.
  - apply (Hc Cached_VertexFormat).
  - apply (Hc Cached_PaletteSource).
  - unfold EVE_CoDl_vertex2f_4.
    destruct ((EVE_VERTEX2F_MAX <? x) || (EVE_VERTEX2F_MAX <? y));
      (apply framed_seq; [apply (Hc Cached_VertexFormat)
                         | apply framed_EVE_CoCmd_dl]).
  - apply framed_seq; [apply (Hc Cached_VertexFormat) | apply framed_EVE_CoCmd_dl].
  - apply framed_seq; [apply (Hc Cached_VertexFormat) | apply framed_EVE_CoCmd_dl].
Qed.

(** ** The context stack (spec sections 3 and 4.4) *)

Lemma stack_size_bounds (cfg : EVE_Config) (k : Z) :
  stack_pow2 cfg k -> 0 < EVE_DL_STATE_STACK_SIZE cfg <= 256.
Proof.
  intros (Hk & Hs & _). rewrite Hs. split.
  - apply Z.pow_pos_nonneg; lia.
  - change 256 with (2 ^ 8). apply Z.pow_le_mono_r; lia.
Qed.

Lemma land_stack_mask (cfg : EVE_Config) (k x : Z) :
  stack_pow2 cfg k ->
  Z.land x (EVE_DL_STATE_STACK_MASK cfg) = x mod EVE_DL_STATE_STACK_SIZE cfg.
Proof.
  intros (Hk & Hs & Hm). rewrite Hm, Hs.
  replace (2 ^ k - 1) with (Z.ones k) by (rewrite Z.ones_equiv; lia).
  apply Z.land_ones. lia.
Qed.

Lemma to_uint8_small (x : Z) : 0 <= x < 256 -> to_uint8 x = x.
Proof. intros H. apply Z.mod_small, H. Qed.

(** The index a save or a restore computes, as a residue of the size. *)
Lemma masked_index (cfg : EVE_Config) (k x : Z) :
  stack_pow2 cfg k ->
  to_uint8 (Z.land x (EVE_DL_STATE_STACK_MASK cfg))
  = x mod EVE_DL_STATE_STACK_SIZE cfg.
Proof.
  intros Hp. rewrite (land_stack_mask cfg k) by exact Hp.
  pose proof (stack_size_bounds cfg k Hp).
  pose proof (Z.mod_pos_bound x (EVE_DL_STATE_STACK_SIZE cfg)).
  apply to_uint8_small. lia.
Qed.

Lemma mod_shift_ne (n i d : Z) :
  0 <= i < n -> 0 < d < n -> (i + d) mod n <> i.
Proof.
  intros Hi Hd. destruct (Z_lt_ge_dec (i + d) n) as [Hlt | Hge].
  - rewrite Z.mod_small by lia. lia.
  - replace (i + d) with ((i + d - n) + 1 * n) by lia.
    rewrite Z_mod_plus_full, Z.mod_small by lia. lia.
Qed.

Lemma saveContext_spec (cfg : EVE_Config) (k : Z) (h : EVE_HalContext) :
  stack_pow2 cfg k -> has_dl_state cfg = true -> wf_host cfg h ->
  exists h' : EVE_HalContext,
    EVE_CoDl_saveContext cfg h = Some h' /\
    CoCmdDl h' = CoCmdDl h ++ [SAVE_CONTEXT] /\
    DlStateIndex h' = (DlStateIndex h + 1) mod EVE_DL_STATE_STACK_SIZE cfg /\
    DlPrimitive h' = DlPrimitive h /\
    length (DlState h') = length (DlState h) /\
    EVE_DL_STATE h' = EVE_DL_STATE h /\
    (forall j : Z, j <> DlStateIndex h' ->
       array_get (DlState h') j = array_get (DlState h) j).
Proof.
  intros Hp Hd [Hl Hi].
  pose proof (stack_size_bounds cfg k Hp) as Hs.
  pose proof (Z.mod_pos_bound (DlStateIndex h + 1) _ (proj1 Hs)) as Hn.
  destruct (array_get_is_Some (DlState h) (DlStateIndex h)) as [st Hst]; [lia |].
  unfold EVE_CoDl_saveContext, seq_op, when. fold (has_dl_state cfg).
  rewrite Hd, EVE_CoCmd_dl_eq; simpl.
  rewrite (masked_index cfg k) by exact Hp. rewrite Hst; simpl.
  unfold assign_DlState; simpl. rewrite array_set_Some by lia. simpl.
  eexists. split; [reflexivity |]. simpl. repeat split.
  - apply length_insert.
  - unfold EVE_DL_STATE; simpl. rewrite Hst. apply array_get_insert_eq. lia.
  - intros j Hj. apply array_get_insert_ne; [lia | congruence].
Qed.

Lemma restoreContext_spec (cfg : EVE_Config) (k : Z) (h : EVE_HalContext) :
  stack_pow2 cfg k -> has_dl_state cfg = true ->
  exists h' : EVE_HalContext,
    EVE_CoDl_restoreContext cfg h = Some h' /\
    CoCmdDl h' = CoCmdDl h ++ [RESTORE_CONTEXT] /\
    DlStateIndex h' = (DlStateIndex h - 1) mod EVE_DL_STATE_STACK_SIZE cfg /\
    DlPrimitive h' = DlPrimitive h /\
    DlState h' = DlState h.
Proof.
  intros Hp Hd.
  unfold EVE_CoDl_restoreContext, seq_op, when. fold (has_dl_state cfg).
  rewrite Hd, EVE_CoCmd_dl_eq; simpl.
  rewrite (masked_index cfg k) by exact Hp.
  eexists. split; [reflexivity |]. repeat split.
Qed.

(** With neither cache compiled in, a save or restore only writes its word. *)
Lemma saveContext_no_state (cfg : EVE_Config) (h : EVE_HalContext) :
  has_dl_state cfg = false ->
  EVE_CoDl_saveContext cfg h = Some (emit SAVE_CONTEXT h).
Proof.
  intros Hd. unfold EVE_CoDl_saveContext, seq_op, when.
  fold (has_dl_state cfg). rewrite Hd. reflexivity.
Qed.

Lemma restoreContext_no_state (cfg : EVE_Config) (h : EVE_HalContext) :
  has_dl_state cfg = false ->
  EVE_CoDl_restoreContext cfg h = Some (emit RESTORE_CONTEXT h).
Proof.
  intros Hd. unfold EVE_CoDl_restoreContext, seq_op, when.
  fold (has_dl_state cfg). rewrite Hd. reflexivity.
Qed.

(** [begin] and [end] touch neither the index nor the array. *)
Lemma begin_keeps_stack (cfg : EVE_Config) (gpu : EVE_GpuDefs) (prim : Z)
    (h : EVE_HalContext) :
  exists h' : EVE_HalContext,
    EVE_CoDl_begin cfg gpu prim h = Some h' /\
    DlStateIndex h' = DlStateIndex h /\ DlState h' = DlState h.
Proof.
  unfold EVE_CoDl_begin.
  destruct (EVE_DL_OPTIMIZE cfg);
    [destruct (negb (prim =? reset_continuous gpu (DlPrimitive h))) |];
    eexists; (split; [reflexivity | split; reflexivity]).
Qed.

Lemma end_keeps_stack (cfg : EVE_Config) (h : EVE_HalContext) :
  exists h' : EVE_HalContext,
    EVE_CoDl_end cfg h = Some h' /\
    DlStateIndex h' = DlStateIndex h /\ DlState h' = DlState h.
Proof.
  unfold EVE_CoDl_end.
  destruct (EVE_DL_END_PRIMITIVE cfg), (EVE_DL_OPTIMIZE cfg); simpl;
    try destruct (negb (DlPrimitive h =? 0));
    eexists; (split; [reflexivity | split; reflexivity]).
Qed.

Lemma run_app (cfg : EVE_Config) (gpu : EVE_GpuDefs) (cs1 cs2 : list CoDlCall)
    (h : EVE_HalContext) :
  run cfg gpu (cs1 ++ cs2) h = run cfg gpu cs1 h ≫= run cfg gpu cs2.
Proof.
  revert h. induction cs1 as [| c cs1 IH]; intros h; simpl.
  - reflexivity.
  - unfold seq_op. destruct (exec cfg gpu c h) as [h1 |]; simpl.
    + apply IH.
    + reflexivity.
Qed.

Lemma framed_run (cfg : EVE_Config) (gpu : EVE_GpuDefs) (cs : list CoDlCall) :
  Forall (fun c => is_setter c = true) cs -> framed (run cfg gpu cs).
Proof.
  induction 1 as [| c cs Hc _ IH]; simpl.
  - apply framed_skip.
  - apply framed_seq; [apply framed_exec, Hc | exact IH].
Qed.

(** Every call returns, and keeps the array size and an index inside it;
    only a save or a restore changes the index. *)
Lemma exec_wf_host (cfg : EVE_Config) (gpu : EVE_GpuDefs) (k : Z)
    (c : CoDlCall) (h : EVE_HalContext) :
  stack_pow2 cfg k -> wf_host cfg h ->
  exists h' : EVE_HalContext,
    exec cfg gpu c h = Some h' /\ wf_host cfg h' /\
    (is_context_call c = false -> DlStateIndex h' = DlStateIndex h).
Proof.
  intros Hp Hwf.
  destruct (is_setter c) eqn:Hs.
  { destruct (framed_exec cfg gpu c Hs h (wf_host_live _ _ Hwf)) as (h' & He & Hf).
    exists h'. split; [exact He |]. split; [eapply frame_wf_host; eassumption |].
    intros _. apply Hf. }
  pose proof (stack_size_bounds cfg k Hp) as Hb.
  destruct c; try discriminate Hs; simpl.
  - destruct (begin_keeps_stack cfg gpu prim h) as (h' & He & Hi & Hd).
    exists h'. split; [exact He |]. unfold wf_host. rewrite Hi, Hd. auto.
  - destruct (end_keeps_stack cfg h) as (h' & He & Hi & Hd).
    exists h'. split; [exact He |]. unfold wf_host. rewrite Hi, Hd. auto.
  - destruct (has_dl_state cfg) eqn:Hd.
    + destruct (saveContext_spec cfg k h Hp Hd Hwf) as (h' & He & _ & Hi & _ & Hl & _).
      exists h'. split; [exact He |]. split; [| discriminate].
      unfold wf_host. rewrite Hl, Hi. split; [apply Hwf |].
      apply Z.mod_pos_bound. lia.
    + rewrite saveContext_no_state by exact Hd. eexists.
      split; [reflexivity |]. split; [exact Hwf | discriminate].
  - destruct (has_dl_state cfg) eqn:Hd.
    + destruct (restoreContext_spec cfg k h Hp Hd) as (h' & He & _ & Hi & _ & Hl).
      exists h'. split; [exact He |]. split; [| discriminate].
      unfold wf_host. rewrite Hl, Hi. split; [apply Hwf |].
      apply Z.mod_pos_bound. lia.
    + rewrite restoreContext_no_state by exact Hd. eexists.
      split; [reflexivity |]. split; [exact Hwf | discriminate].
Qed.

Lemma run_wf_host (cfg : EVE_Config) (gpu : EVE_GpuDefs) (k : Z)
    (cs : list CoDlCall) (h : EVE_HalContext) :
  stack_pow2 cfg k -> wf_host cfg h ->
  exists h' : EVE_HalContext, run cfg gpu cs h = Some h' /\ wf_host cfg h'.
Proof.
  intros Hp. revert h. induction cs as [| c cs IH]; intros h Hwf; simpl.
  - exists h. split; [reflexivity | exact Hwf].
  - destruct (exec_wf_host cfg gpu k c h Hp Hwf) as (h1 & H1 & Hwf1 & _).
    destruct (IH h1 Hwf1) as (h2 & H2 & Hwf2).
    exists h2. split; [| exact Hwf2]. unfold seq_op. rewrite H1. exact H2.
Qed.

Section RoundTrip.

Context (cfg : EVE_Config) (gpu : EVE_GpuDefs) (k : Z).
Context (i0 : Z) (s0 : EVE_HalDlState) (p0 : Z).
Hypothesis Hpow2 : stack_pow2 cfg k.
Hypothesis Hstate : has_dl_state cfg = true.
Hypothesis Hi0 : 0 <= i0 < EVE_DL_STATE_STACK_SIZE cfg.

#[local] Abbreviation size := (EVE_DL_STATE_STACK_SIZE cfg).

Lemma block_at_depth (b : list CoDlCall) (d : Z) (h : EVE_HalContext) :
  0 < d < size ->
  Forall (fun c => is_setter c = true) b ->
  at_depth cfg i0 s0 p0 d h ->
  exists h' : EVE_HalContext,
    run cfg gpu b h = Some h' /\ at_depth cfg i0 s0 p0 d h'.
Proof.
  intros Hd Hb (Hwf & Hidx & Hslot & Hprim).
  destruct (framed_run cfg gpu b Hb h (wf_host_live _ _ Hwf))
    as (h' & Hrun & Hf).
  exists h'. split; [exact Hrun |].
  destruct Hf as (Fi & Fp & Fl & Fs & _).
  split; [| split; [| split]].
  - unfold wf_host in *. rewrite Fl, Fi. exact Hwf.
  - congruence.
  - rewrite Fs; [exact Hslot |]. rewrite Hidx. intros E. symmetry in E.
    revert E. apply mod_shift_ne; assumption.
  - congruence.
Qed.

Lemma save_at_depth (d : Z) (h : EVE_HalContext) :
  0 <= d -> d + 1 < size ->
  at_depth cfg i0 s0 p0 d h ->
  exists h' : EVE_HalContext,
    EVE_CoDl_saveContext cfg h = Some h' /\ at_depth cfg i0 s0 p0 (d + 1) h'.
Proof.
  intros Hd0 Hd1 (Hwf & Hidx & Hslot & Hprim).
  destruct (saveContext_spec cfg k h Hpow2 Hstate Hwf)
    as (h' & Hs & _ & Si & Sp & Sl & _ & Ss).
  assert (Hnew : DlStateIndex h' = (i0 + (d + 1)) mod size).
  { rewrite Si, Hidx, Z.add_mod_idemp_l by lia. f_equal. lia. }
  exists h'. split; [exact Hs |]. split; [| split; [| split]].
  - unfold wf_host. rewrite Sl, Hnew. split; [apply Hwf |].
    apply Z.mod_pos_bound. lia.
  - exact Hnew.
  - rewrite Ss; [exact Hslot |]. rewrite Hnew. intros E. symmetry in E.
    revert E. apply mod_shift_ne; lia.
  - congruence.
Qed.

Lemma restore_at_depth (d : Z) (h : EVE_HalContext) :
  at_depth cfg i0 s0 p0 d h ->
  exists h' : EVE_HalContext,
    EVE_CoDl_restoreContext cfg h = Some h' /\ at_depth cfg i0 s0 p0 (d - 1) h'.
Proof.
  intros (Hwf & Hidx & Hslot & Hprim).
  destruct (restoreContext_spec cfg k h Hpow2 Hstate)
    as (h' & Hs & _ & Si & Sp & Sd).
  assert (Hnew : DlStateIndex h' = (i0 + (d - 1)) mod size).
  { rewrite Si, Hidx, Zminus_mod_idemp_l. f_equal. lia. }
  exists h'. split; [exact Hs |]. split; [| split; [| split]].
  - unfold wf_host. rewrite Sd, Hnew. split; [apply Hwf |].
    apply Z.mod_pos_bound. lia.
  - exact Hnew.
  - rewrite Sd. exact Hslot.
  - congruence.
Qed.

Lemma save_phase_at_depth (bs : list (list CoDlCall)) :
  Forall (Forall (fun c => is_setter c = true)) bs ->
  forall (d : Z) (h : EVE_HalContext),
    0 <= d -> d + Z.of_nat (length bs) < size ->
    at_depth cfg i0 s0 p0 d h ->
    exists h' : EVE_HalContext,
      run cfg gpu (save_phase bs) h = Some h' /\
      at_depth cfg i0 s0 p0 (d + Z.of_nat (length bs)) h'.
Proof.
  induction 1 as [| b bs Hb _ IH]; intros d h Hd0 Hd1 Hat.
  - exists h. split; [reflexivity |].
    replace (d + Z.of_nat (length (@nil (list CoDlCall)))) with d
      by (simpl; lia). exact Hat.
  - rewrite length_cons in *.
    destruct (save_at_depth d h Hd0 ltac:(lia) Hat) as (h1 & H1 & Hat1).
    destruct (block_at_depth b (d + 1) h1 ltac:(lia) Hb Hat1)
      as (h2 & H2 & Hat2).
    destruct (IH (d + 1) h2 ltac:(lia) ltac:(lia) Hat2) as (h3 & H3 & Hat3).
    exists h3. split.
    + unfold save_phase in *. simpl. unfold seq_op. simpl in H1. rewrite H1.
      simpl. rewrite run_app, H2. exact H3.
    + replace (d + Z.of_nat (S (length bs)))
        with (d + 1 + Z.of_nat (length bs)) by lia. exact Hat3.
Qed.

Lemma restore_phase_at_depth (cs : list (list CoDlCall)) :
  Forall (Forall (fun c => is_setter c = true)) cs ->
  forall (d : Z) (h : EVE_HalContext),
    Z.of_nat (length cs) <= d < size ->
    at_depth cfg i0 s0 p0 d h ->
    exists h' : EVE_HalContext,
      run cfg gpu (restore_phase cs) h = Some h' /\
      at_depth cfg i0 s0 p0 (d - Z.of_nat (length cs)) h'.
Proof.
  induction 1 as [| b cs Hb _ IH]; intros d h Hd Hat.
  - exists h. split; [reflexivity |].
    replace (d - Z.of_nat (length (@nil (list CoDlCall)))) with d
      by (simpl; lia). exact Hat.
  - rewrite length_cons in *.
    destruct (block_at_depth b d h ltac:(lia) Hb Hat) as (h1 & H1 & Hat1).
    destruct (restore_at_depth d h1 Hat1) as (h2 & H2 & Hat2).
    destruct (IH (d - 1) h2 ltac:(lia) Hat2) as (h3 & H3 & Hat3).
    exists h3. split.
    + unfold restore_phase in *. simpl. rewrite !run_app, H1. simpl.
      unfold seq_op, skip. simpl in H2. rewrite H2. simpl. exact H3.
    + replace (d - Z.of_nat (S (length cs)))
        with (d - 1 - Z.of_nat (length cs)) by lia. exact Hat3.
Qed.

End RoundTrip.

(** Without setters in between, the round trip holds for every [N]: the
    slots a save overwrites are copies of the state saved from. *)
Lemma saves_plain (cfg : EVE_Config) (gpu : EVE_GpuDefs) (k : Z) (n : nat) :
  stack_pow2 cfg k -> has_dl_state cfg = true ->
  forall (i0 : Z) (s0 : EVE_HalDlState) (d : Z) (h : EVE_HalContext),
    0 <= i0 < EVE_DL_STATE_STACK_SIZE cfg ->
    wf_host cfg h ->
    DlStateIndex h = (i0 + d) mod EVE_DL_STATE_STACK_SIZE cfg ->
    array_get (DlState h) i0 = Some s0 ->
    EVE_DL_STATE h = Some s0 ->
    exists h' : EVE_HalContext,
      run cfg gpu (repeat CoDl_saveContext n) h = Some h' /\
      wf_host cfg h' /\
      DlStateIndex h' = (i0 + (d + Z.of_nat n)) mod EVE_DL_STATE_STACK_SIZE cfg /\
      array_get (DlState h') i0 = Some s0 /\
      DlPrimitive h' = DlPrimitive h.
Proof.
  intros Hp Hd. pose proof (stack_size_bounds cfg k Hp) as Hb.
  induction n as [| n IH]; intros i0 s0 d h Hi0 Hwf Hidx Hslot Hact.
  - exists h. split; [reflexivity |]. rewrite Z.add_0_r. auto.
  - destruct (saveContext_spec cfg k h Hp Hd Hwf)
      as (h1 & H1 & _ & Si & Sp & Sl & Sa & Ss).
    assert (Hidx1 : DlStateIndex h1
                    = (i0 + (d + 1)) mod EVE_DL_STATE_STACK_SIZE cfg).
    { rewrite Si, Hidx, Z.add_mod_idemp_l by lia. f_equal. lia. }
    assert (Hwf1 : wf_host cfg h1).
    { unfold wf_host. rewrite Sl, Hidx1. split; [apply Hwf |].
      apply Z.mod_pos_bound. lia. }
    assert (Hslot1 : array_get (DlState h1) i0 = Some s0).
    { destruct (Z.eq_dec i0 (DlStateIndex h1)) as [E | E].
      - rewrite E. fold (EVE_DL_STATE h1). congruence.
      - rewrite Ss by exact E. exact Hslot. }
    destruct (IH i0 s0 (d + 1) h1 Hi0 Hwf1 Hidx1 Hslot1 ltac:(congruence))
      as (h2 & H2 & Hwf2 & Hidx2 & Hslot2 & Hp2).
    exists h2. split; [| split; [exact Hwf2 | split; [| split]]].
    + simpl. unfold seq_op. simpl in H1. rewrite H1. exact H2.
    + rewrite Hidx2. f_equal. lia.
    + exact Hslot2.
    + congruence.
Qed.

Lemma restores_plain (cfg : EVE_Config) (gpu : EVE_GpuDefs) (k : Z) (n : nat) :
  stack_pow2 cfg k -> has_dl_state cfg = true ->
  forall (i0 d : Z) (h : EVE_HalContext),
    DlStateIndex h = (i0 + d) mod EVE_DL_STATE_STACK_SIZE cfg ->
    exists h' : EVE_HalContext,
      run cfg gpu (repeat CoDl_restoreContext n) h = Some h' /\
      DlStateIndex h' = (i0 + (d - Z.of_nat n)) mod EVE_DL_STATE_STACK_SIZE cfg /\
      DlState h' = DlState h /\
      DlPrimitive h' = DlPrimitive h.
Proof.
  intros Hp Hd. induction n as [| n IH]; intros i0 d h Hidx.
  - exists h. split; [reflexivity |]. rewrite Z.sub_0_r. auto.
  - destruct (restoreContext_spec cfg k h Hp Hd) as (h1 & H1 & _ & Si & Sp & Sd).
    assert (Hidx1 : DlStateIndex h1
                    = (i0 + (d - 1)) mod EVE_DL_STATE_STACK_SIZE cfg).
    { rewrite Si, Hidx, Zminus_mod_idemp_l. f_equal. lia. }
    destruct (IH i0 (d - 1) h1 Hidx1) as (h2 & H2 & Hidx2 & Hd2 & Hp2).
    exists h2. split; [| split; [| split]].
    + simpl. unfold seq_op. simpl in H1. rewrite H1. exact H2.
    + rewrite Hidx2. f_equal. lia.
    + congruence.
    + congruence.
Qed.

Lemma save_restore_plain_round_trip (cfg : EVE_Config) (gpu : EVE_GpuDefs)
    (k : Z) (n : nat) (h : EVE_HalContext) :
  stack_pow2 cfg k -> has_dl_state cfg = true -> wf_host cfg h ->
  exists h' : EVE_HalContext,
    run cfg gpu (repeat CoDl_saveContext n ++ repeat CoDl_restoreContext n) h
    = Some h' /\
    EVE_DL_STATE h' = EVE_DL_STATE h /\
    DlStateIndex h' = DlStateIndex h /\
    DlPrimitive h' = DlPrimitive h.
Proof.
  intros Hp Hd Hwf.
  destruct (array_get_is_Some (DlState h) (DlStateIndex h)) as [s0 Hs0];
    [apply wf_host_live with cfg, Hwf |].
  assert (Hi0 : 0 <= DlStateIndex h < EVE_DL_STATE_STACK_SIZE cfg) by apply Hwf.
  destruct (saves_plain cfg gpu k n Hp Hd (DlStateIndex h) s0 0 h Hi0 Hwf)
    as (h1 & H1 & Hwf1 & Hidx1 & Hslot1 & Hp1); try assumption.
  { rewrite Z.add_0_r, Z.mod_small; [reflexivity | exact Hi0]. }
  destruct (restores_plain cfg gpu k n Hp Hd (DlStateIndex h) _ h1 Hidx1)
    as (h2 & H2 & Hidx2 & Hd2 & Hp2).
  exists h2. rewrite run_app, H1. split; [exact H2 |].
  replace (0 + Z.of_nat n - Z.of_nat n) with 0 in Hidx2 by lia.
  rewrite Z.add_0_r, Z.mod_small in Hidx2 by exact Hi0.
  split; [| split; congruence].
  unfold EVE_DL_STATE. rewrite Hidx2, Hd2, Hslot1. symmetry. exact Hs0.
Qed.

(** C3 (as amended). With the shadow stack compiled in and [N] smaller than
    the stack size, [N] saves followed by [N] restores, with any setters
    interleaved between them, return the index, the active shadow state and
    the active primitive to what they were before the first save; with no
    setter in between this holds for every [N].  Each save and each restore
    writes exactly one word ([SAVE_CONTEXT], resp. [RESTORE_CONTEXT])
    whatever the state, and moves the index one slot forward, resp. back,
    modulo the size. *)
Theorem save_restore_round_trip
    (cfg : EVE_Config) (gpu : EVE_GpuDefs) (k : Z)
    (bs cs : list (list CoDlCall)) (h : EVE_HalContext) :
  stack_pow2 cfg k ->
  has_dl_state cfg = true ->
  wf_host cfg h ->
  length bs = length cs ->
  Z.of_nat (length bs) < EVE_DL_STATE_STACK_SIZE cfg ->
  Forall (Forall (fun c => is_setter c = true)) bs ->
  Forall (Forall (fun c => is_setter c = true)) cs ->
  (exists h' : EVE_HalContext,
     run cfg gpu (save_phase bs ++ restore_phase cs) h = Some h' /\
     EVE_DL_STATE h' = EVE_DL_STATE h /\
     DlStateIndex h' = DlStateIndex h /\
     DlPrimitive h' = DlPrimitive h) /\
  (forall h0 : EVE_HalContext, wf_host cfg h0 ->
     exists h1 : EVE_HalContext,
       EVE_CoDl_saveContext cfg h0 = Some h1 /\
       CoCmdDl h1 = CoCmdDl h0 ++ [SAVE_CONTEXT] /\
       DlStateIndex h1
       = (DlStateIndex h0 + 1) mod EVE_DL_STATE_STACK_SIZE cfg) /\
  (forall h0 : EVE_HalContext,
     exists h1 : EVE_HalContext,
       EVE_CoDl_restoreContext cfg h0 = Some h1 /\
       CoCmdDl h1 = CoCmdDl h0 ++ [RESTORE_CONTEXT] /\
       DlStateIndex h1
       = (DlStateIndex h0 - 1) mod EVE_DL_STATE_STACK_SIZE cfg) /\
  (forall n : nat,
     exists h' : EVE_HalContext,
       run cfg gpu
         (repeat CoDl_saveContext n ++ repeat CoDl_restoreContext n) h
       = Some h' /\
       EVE_DL_STATE h' = EVE_DL_STATE h /\
       DlStateIndex h' = DlStateIndex h /\
       DlPrimitive h' = DlPrimitive h).
Proof.
  intros Hp Hd Hwf Hlen HN Hbs Hcs. split; [| split; [| split]];
    [| | | intros n; apply (save_restore_plain_round_trip cfg gpu k);
           assumption].
  - destruct (array_get_is_Some (DlState h) (DlStateIndex h)) as [s0 Hs0];
      [apply wf_host_live with cfg, Hwf |].
    assert (Hi0 : 0 <= DlStateIndex h < EVE_DL_STATE_STACK_SIZE cfg)
      by apply Hwf.
    assert (Hat : at_depth cfg (DlStateIndex h) s0 (DlPrimitive h) 0 h).
    { split; [exact Hwf |]. split; [| split; [exact Hs0 | reflexivity]].
      rewrite Z.add_0_r, Z.mod_small; [reflexivity | exact Hi0]. }
    destruct (save_phase_at_depth cfg gpu k _ s0 (DlPrimitive h) Hp Hd Hi0
                bs Hbs 0 h ltac:(lia) ltac:(lia) Hat) as (h1 & H1 & Hat1).
    destruct (restore_phase_at_depth cfg gpu k _ s0 (DlPrimitive h) Hp Hd Hi0
                cs Hcs (0 + Z.of_nat (length bs)) h1 ltac:(lia) Hat1)
      as (h2 & H2 & Hat2).
    exists h2. rewrite run_app, H1. split; [exact H2 |].
    destruct Hat2 as (_ & Hidx & Hslot & Hprim).
    replace (0 + Z.of_nat (length bs) - Z.of_nat (length cs)) with 0 in Hidx
      by lia.
    rewrite Z.add_0_r, Z.mod_small in Hidx by exact Hi0.
    split; [| split; assumption].
    unfold EVE_DL_STATE. rewrite Hidx, Hslot. symmetry. exact Hs0.
  - intros h0 Hwf0.
    destruct (saveContext_spec cfg k h0 Hp Hd Hwf0) as (h1 & H1 & Hw & Hi & _).
    exists h1. auto.
  - intros h0.
    destruct (restoreContext_spec cfg k h0 Hp Hd) as (h1 & H1 & Hw & Hi & _).
    exists h1. auto.
Qed.

Lemma stack_pow2_cfg_cached : stack_pow2 cfg_cached 2.
Proof. unfold stack_pow2; simpl. lia. Defined.

Lemma wf_host_sample : wf_host cfg_cached host_sample.
Proof. unfold wf_host; simpl. lia. Defined.

Lemma save_restore_round_trip_witness :
  stack_pow2 cfg_cached 2 /\
  has_dl_state cfg_cached = true /\
  wf_host cfg_cached host_sample /\
  Z.of_nat (length save_blocks_sample) < EVE_DL_STATE_STACK_SIZE cfg_cached /\
  exists h' : EVE_HalContext,
    run cfg_cached gpu_sample
      (save_phase save_blocks_sample ++ restore_phase restore_blocks_sample)
      host_sample = Some h' /\
    EVE_DL_STATE h' = EVE_DL_STATE host_sample /\
    DlStateIndex h' = DlStateIndex host_sample /\
    DlPrimitive h' = DlPrimitive host_sample.
Proof.
  assert (HN : Z.of_nat (length save_blocks_sample)
               < EVE_DL_STATE_STACK_SIZE cfg_cached) by (simpl; lia).
  split; [exact stack_pow2_cfg_cached |]. split; [reflexivity |].
  split; [exact wf_host_sample |]. split; [exact HN |].
  refine (proj1 (save_restore_round_trip cfg_cached gpu_sample 2
                   save_blocks_sample restore_blocks_sample host_sample
                   stack_pow2_cfg_cached eq_refl wf_host_sample eq_refl HN _ _));
    repeat constructor.
Defined.

(** C3 as stated fails when [N] is the stack size: four saves on a four-slot
    stack, with one setter after the first save, wrap around and overwrite
    the slot saved from; four restores come back to a changed state. *)
Lemma save_restore_round_trip_counterexample :
  Z.of_nat (length save_blocks_wrap) <= EVE_DL_STATE_STACK_SIZE cfg_cached /\
  length save_blocks_wrap = length restore_blocks_wrap /\
  Forall (Forall (fun c => is_setter c = true)) save_blocks_wrap /\
  Forall (Forall (fun c => is_setter c = true)) restore_blocks_wrap /\
  wf_host cfg_cached host_sample /\
  exists h' : EVE_HalContext,
    run cfg_cached gpu_sample
      (save_phase save_blocks_wrap ++ restore_phase restore_blocks_wrap)
      host_sample = Some h' /\
    ColorA <$> EVE_DL_STATE host_sample = Some 255 /\
    ColorA <$> EVE_DL_STATE h' = Some 5 /\
    EVE_DL_STATE h' <> EVE_DL_STATE host_sample.
Proof.
  split; [simpl; lia |]. split; [reflexivity |].
  split; [repeat constructor |]. split; [repeat constructor |].
  split; [exact wf_host_sample |].
  eexists. split; [vm_compute; reflexivity |].
  split; [reflexivity |]. split; [reflexivity |].
  vm_compute. discriminate.
Qed.

(** C10. On a stack whose size is a power of two, every call returns and
    leaves the array at its size and the index inside it; a call other than
    a save or a restore leaves the index as it was; a save or a restore
    stores the masked successor, resp. predecessor, of the index.  Hence
    every sequence of calls, however many saves and restores it has,
    returns with the index in bounds and the active slot readable. *)
Theorem stack_index_stays_in_bounds
    (cfg : EVE_Config) (gpu : EVE_GpuDefs) (k : Z) :
  stack_pow2 cfg k ->
  (forall (c : CoDlCall) (h : EVE_HalContext), wf_host cfg h ->
     exists h' : EVE_HalContext,
       exec cfg gpu c h = Some h' /\ wf_host cfg h' /\
       (is_context_call c = false -> DlStateIndex h' = DlStateIndex h)) /\
  (forall h : EVE_HalContext, wf_host cfg h -> has_dl_state cfg = true ->
     DlStateIndex <$> EVE_CoDl_saveContext cfg h
     = Some (to_uint8 (Z.land (DlStateIndex h + 1) (EVE_DL_STATE_STACK_MASK cfg))) /\
     DlStateIndex <$> EVE_CoDl_restoreContext cfg h
     = Some (to_uint8 (Z.land (DlStateIndex h - 1) (EVE_DL_STATE_STACK_MASK cfg)))) /\
  (forall (cs : list CoDlCall) (h : EVE_HalContext), wf_host cfg h ->
     exists h' : EVE_HalContext,
       run cfg gpu cs h = Some h' /\ wf_host cfg h' /\
       0 <= DlStateIndex h' <= EVE_DL_STATE_STACK_MASK cfg /\
       exists st : EVE_HalDlState, EVE_DL_STATE h' = Some st).
Proof.
  intros Hp. split; [| split].
  - intros c h Hwf. apply (exec_wf_host cfg gpu k); assumption.
  - intros h Hwf Hd. rewrite !(masked_index cfg k) by exact Hp. split.
    + destruct (saveContext_spec cfg k h Hp Hd Hwf) as (h1 & H1 & _ & Hi & _).
      rewrite H1. simpl. congruence.
    + destruct (restoreContext_spec cfg k h Hp Hd) as (h1 & H1 & _ & Hi & _).
      rewrite H1. simpl. congruence.
  - intros cs h Hwf.
    destruct (run_wf_host cfg gpu k cs h Hp Hwf) as (h' & Hr & Hwf').
    exists h'. split; [exact Hr |]. split; [exact Hwf' |]. split.
    + destruct Hp as (_ & Hs & Hm). destruct Hwf' as [_ Hi]. lia.
    + apply live_EVE_DL_STATE, wf_host_live with cfg, Hwf'.
Qed.

Lemma stack_index_stays_in_bounds_witness :
  stack_pow2 cfg_cached 2 /\
  wf_host cfg_cached host_sample /\
  exists h' : EVE_HalContext,
    run cfg_cached gpu_sample over_push_pop host_sample = Some h' /\
    wf_host cfg_cached h' /\
    0 <= DlStateIndex h' <= EVE_DL_STATE_STACK_MASK cfg_cached /\
    exists st : EVE_HalDlState, EVE_DL_STATE h' = Some st.
Proof.
  split; [exact stack_pow2_cfg_cached |]. split; [exact wf_host_sample |].
  exact (proj2 (proj2 (stack_index_stays_in_bounds cfg_cached gpu_sample 2
                         stack_pow2_cfg_cached))
           over_push_pop host_sample wf_host_sample).
Defined.

(** ** The vertex precision selector (spec section 4.5) *)

Lemma to_int16_small (z : Z) : is_int16 z -> to_int16 z = z.
Proof.
  unfold is_int16, to_int16. intros H. rewrite Z.mod_small by lia. lia.
Qed.

Lemma shiftr_1_int16 (z : Z) : is_int16 z -> is_int16 (Z.shiftr z 1).
Proof.
  unfold is_int16. intros H. rewrite Z.shiftr_div_pow2 by lia.
  change (2 ^ 1) with 2. split.
  - apply Z.div_le_lower_bound; lia.
  - apply Z.div_lt_upper_bound; lia.
Qed.

Lemma with_VertexFormat_same (st : EVE_HalDlState) :
  with_VertexFormat (VertexFormat st) st = st.
Proof. destruct st; reflexivity. Qed.

Lemma format_then_vertex (cfg : EVE_Config) (frac x y : Z)
    (h : EVE_HalContext) (st : EVE_HalDlState) :
  EVE_DL_STATE h = Some st ->
  exists h' : EVE_HalContext,
    (EVE_CoDl_vertexFormat cfg frac ;> EVE_CoDl_vertex2f x y) h = Some h' /\
    CoCmdDl h' = CoCmdDl h ++ format_and_vertex_words cfg st frac x y /\
    (EVE_DL_OPTIMIZE cfg = true ->
       EVE_DL_STATE h' = Some (with_VertexFormat frac st)) /\
    (EVE_DL_OPTIMIZE cfg = false -> EVE_DL_STATE h' = Some st).
Proof.
  intros Hst. unfold seq_op, format_and_vertex_words.
  change (EVE_CoDl_vertexFormat cfg frac)
    with (cached_setter cfg Cached_VertexFormat frac).
  destruct (EVE_DL_OPTIMIZE cfg) eqn:Hopt; simpl.
  - destruct (Z.eqb_spec frac (VertexFormat st)) as [E | E].
    + rewrite (cached_setter_hit cfg Cached_VertexFormat frac h st)
        by (simpl; auto).
      eexists. split; [reflexivity |]. simpl. repeat split; try discriminate.
      intros _. subst frac. rewrite with_VertexFormat_same. exact Hst.
    + rewrite (cached_setter_miss cfg Cached_VertexFormat frac h st)
        by (simpl; auto).
      eexists. split; [reflexivity |]. simpl.
      rewrite <- app_assoc. repeat split; try discriminate.
      intros _. apply (EVE_DL_STATE_put_state _ st), Hst.
  - rewrite cached_setter_uncached by exact Hopt.
    eexists. split; [reflexivity |]. simpl.
    rewrite <- app_assoc. repeat split; try discriminate.
    intros _. exact Hst.
Qed.

(** C4 (as amended). For signed 16-bit [x] and [y], [vertex2f_4] falls back
    exactly when a coordinate is above [EVE_VERTEX2F_MAX]: it then calls the
    cacheable vertex-format setter with 3 and writes the vertex with both
    coordinates shifted right by one (arithmetically); otherwise, also for a
    coordinate below [EVE_VERTEX2F_MIN], it calls the setter with 4 and
    writes the vertex with the coordinates as given.  The format word is
    written unless the cache already holds that format. *)
Theorem vertex2f_4_fallback
    (cfg : EVE_Config) (gpu : EVE_GpuDefs) (x y : Z)
    (h : EVE_HalContext) (st : EVE_HalDlState) :
  is_int16 x -> is_int16 y ->
  EVE_DL_STATE h = Some st ->
  (EVE_VERTEX2F_MAX < x \/ EVE_VERTEX2F_MAX < y ->
     exists h' : EVE_HalContext,
       exec cfg gpu (CoDl_vertex2f_4 x y) h = Some h' /\
       run cfg gpu [CoDl_vertexFormat 3;
                    CoDl_vertex2f (Z.shiftr x 1) (Z.shiftr y 1)] h = Some h' /\
       CoCmdDl h' = CoCmdDl h
                    ++ format_and_vertex_words cfg st 3
                         (Z.shiftr x 1) (Z.shiftr y 1) /\
       (EVE_DL_OPTIMIZE cfg = true ->
          EVE_DL_STATE h' = Some (with_VertexFormat 3 st))) /\
  (x <= EVE_VERTEX2F_MAX /\ y <= EVE_VERTEX2F_MAX ->
     exists h' : EVE_HalContext,
       exec cfg gpu (CoDl_vertex2f_4 x y) h = Some h' /\
       run cfg gpu [CoDl_vertexFormat 4; CoDl_vertex2f x y] h = Some h' /\
       CoCmdDl h' = CoCmdDl h ++ format_and_vertex_words cfg st 4 x y /\
       (EVE_DL_OPTIMIZE cfg = true ->
          EVE_DL_STATE h' = Some (with_VertexFormat 4 st))).
Proof.
  intros Hx Hy Hst. split; intros Hcase.
  - destruct (format_then_vertex cfg 3 (Z.shiftr x 1) (Z.shiftr y 1) h st Hst)
      as (h' & Hr & Hw & Ho & _).
    exists h'. simpl. unfold EVE_CoDl_vertex2f_4.
    replace ((EVE_VERTEX2F_MAX <? x) || (EVE_VERTEX2F_MAX <? y)) with true
      by (symmetry; apply orb_true_iff; rewrite !Z.ltb_lt; exact Hcase).
    rewrite !to_int16_small by (apply shiftr_1_int16; assumption).
    repeat split; assumption.
  - destruct (format_then_vertex cfg 4 x y h st Hst) as (h' & Hr & Hw & Ho & _).
    exists h'. simpl. unfold EVE_CoDl_vertex2f_4.
    replace ((EVE_VERTEX2F_MAX <? x) || (EVE_VERTEX2F_MAX <? y)) with false
      by (symmetry; apply orb_false_iff; rewrite !Z.ltb_ge; exact Hcase).
    repeat split; assumption.
Qed.

Lemma vertex2f_4_fallback_witness :
  is_int16 20000 /\ is_int16 0 /\ is_int16 100 /\
  EVE_DL_STATE host_sample = Some st_sample /\
  (exists h' : EVE_HalContext,
     exec cfg_uncached gpu_sample (CoDl_vertex2f_4 20000 0) host_sample
     = Some h' /\
     CoCmdDl h' = [VERTEX_FORMAT 3; VERTEX2F 10000 0]) /\
  (exists h' : EVE_HalContext,
     exec cfg_uncached gpu_sample (CoDl_vertex2f_4 100 100) host_sample
     = Some h' /\
     CoCmdDl h' = [VERTEX_FORMAT 4; VERTEX2F 100 100]).
Proof.
  assert (H1 : is_int16 20000) by (unfold is_int16; lia).
  assert (H2 : is_int16 0) by (unfold is_int16; lia).
  assert (H3 : is_int16 100) by (unfold is_int16; lia).
  split; [exact H1 |]. split; [exact H2 |]. split; [exact H3 |].
  split; [reflexivity |].
  assert (Hup : EVE_VERTEX2F_MAX < 20000 \/ EVE_VERTEX2F_MAX < 0)
    by (left; unfold EVE_VERTEX2F_MAX; lia).
  assert (Hin : 100 <= EVE_VERTEX2F_MAX /\ 100 <= EVE_VERTEX2F_MAX)
    by (unfold EVE_VERTEX2F_MAX; lia).
  split.
  - destruct (proj1 (vertex2f_4_fallback cfg_uncached gpu_sample 20000 0
                       host_sample st_sample H1 H2 eq_refl) Hup)
      as (h' & He & _ & Hw & _).
    exists h'. split; [exact He | exact Hw].
  - destruct (proj2 (vertex2f_4_fallback cfg_uncached gpu_sample 100 100
                       host_sample st_sample H3 H3 eq_refl) Hin)
      as (h' & He & _ & Hw & _).
    exists h'. split; [exact He | exact Hw].
Defined.

(** C4 as stated fails below [EVE_VERTEX2F_MIN]: at [(-20000, 0)] the
    function sets format 4 and writes the coordinates as given, not format 3
    with halved coordinates. *)
Lemma vertex2f_4_fallback_counterexample :
  is_int16 (-20000) /\ is_int16 0 /\ -20000 < EVE_VERTEX2F_MIN /\
  CoCmdDl <$> exec cfg_uncached gpu_sample (CoDl_vertex2f_4 (-20000) 0)
                host_sample
  = Some [VERTEX_FORMAT 4; VERTEX2F (-20000) 0] /\
  CoCmdDl <$> run cfg_uncached gpu_sample
                [CoDl_vertexFormat 3;
                 CoDl_vertex2f (Z.shiftr (-20000) 1) (Z.shiftr 0 1)]
                host_sample
  = Some [VERTEX_FORMAT 3; VERTEX2F (-10000) 0] /\
  exec cfg_uncached gpu_sample (CoDl_vertex2f_4 (-20000) 0) host_sample
  <> run cfg_uncached gpu_sample
       [CoDl_vertexFormat 3;
        CoDl_vertex2f (Z.shiftr (-20000) 1) (Z.shiftr 0 1)] host_sample /\
  (VertexFormat <$>
     (exec cfg_cached gpu_sample (CoDl_vertex2f_4 (-20000) 0) host_sample
      ≫= EVE_DL_STATE)) = Some 4.
Proof.
  unfold is_int16, EVE_VERTEX2F_MIN.
  repeat split; try lia; try reflexivity.
  vm_compute. discriminate.
Qed.

(** ** Layout and size pairs (spec section 6) *)

(** C8. Whatever the configuration and the arguments, [bitmapLayout] writes
    exactly two words, [BITMAP_LAYOUT_H] with [linestride >> 10] and
    [height >> 9] and then [BITMAP_LAYOUT], and [bitmapSize] writes exactly
    two words, [BITMAP_SIZE_H] with [width >> 9] and [height >> 9] and then
    [BITMAP_SIZE]; neither reads or changes the shadow state. *)
Theorem bitmap_layout_and_size_emit_pairs
    (cfg : EVE_Config) (gpu : EVE_GpuDefs) (h : EVE_HalContext)
    (format linestride height filter wrapx wrapy width : Z) :
  (exists h' : EVE_HalContext,
     exec cfg gpu (CoDl_bitmapLayout format linestride height) h = Some h' /\
     CoCmdDl h' = CoCmdDl h
                  ++ [BITMAP_LAYOUT_H (Z.shiftr linestride 10) (Z.shiftr height 9);
                      BITMAP_LAYOUT format linestride height] /\
     DlState h' = DlState h /\ DlStateIndex h' = DlStateIndex h /\
     DlPrimitive h' = DlPrimitive h) /\
  (exists h' : EVE_HalContext,
     exec cfg gpu (CoDl_bitmapSize filter wrapx wrapy width height) h = Some h' /\
     CoCmdDl h' = CoCmdDl h
                  ++ [BITMAP_SIZE_H (Z.shiftr width 9) (Z.shiftr height 9);
                      BITMAP_SIZE filter wrapx wrapy width height] /\
     DlState h' = DlState h /\ DlStateIndex h' = DlStateIndex h /\
     DlPrimitive h' = DlPrimitive h).
Proof.
  split; (eexists; split; [reflexivity |]); simpl;
    rewrite <- app_assoc; repeat split.
Qed.

(** ** Primitive begin and end (spec section 4.3) *)


Lemma begin_emits (cfg : EVE_Config) (gpu : EVE_GpuDefs) (prim : Z)
    (h : EVE_HalContext) :
  EVE_DL_OPTIMIZE cfg = true ->
  prim <> reset_continuous gpu (DlPrimitive h) ->
  EVE_CoDl_begin cfg gpu prim h = Some (put_primitive prim (emit (BEGIN prim) h)).
Proof.
  intros Hopt Hne. unfold EVE_CoDl_begin. rewrite Hopt.
  destruct (Z.eqb_spec prim (reset_continuous gpu (DlPrimitive h)));
    [contradiction | reflexivity].
Qed.

Lemma begin_skips (cfg : EVE_Config) (gpu : EVE_GpuDefs) (prim : Z)
    (h : EVE_HalContext) :
  EVE_DL_OPTIMIZE cfg = true ->
  prim = reset_continuous gpu (DlPrimitive h) ->
  EVE_CoDl_begin cfg gpu prim h = Some h.
Proof.
  intros Hopt He. unfold EVE_CoDl_begin. rewrite Hopt, <- He, Z.eqb_refl.
  reflexivity.
Qed.




(** C6 (as amended). [end] always returns and touches neither the stack nor
    the index.  With caching and explicit END both enabled it writes [END]
    exactly when a primitive is active, and leaves no primitive active.
    With caching enabled and explicit END disabled it does nothing: nothing
    is written and the active primitive stays as it was.  With caching
    disabled it writes [END] on every call, whatever the END switch and the
    primitive, and leaves the context otherwise unchanged. *)
Theorem end_emission (cfg : EVE_Config) (h : EVE_HalContext) :
  exists h' : EVE_HalContext,
    EVE_CoDl_end cfg h = Some h' /\
    DlState h' = DlState h /\ DlStateIndex h' = DlStateIndex h /\
    (EVE_DL_OPTIMIZE cfg = true -> EVE_DL_END_PRIMITIVE cfg = true ->
       DlPrimitive h' = 0 /\
       (DlPrimitive h <> 0 -> CoCmdDl h' = CoCmdDl h ++ [END]) /\
       (DlPrimitive h = 0 -> CoCmdDl h' = CoCmdDl h)) /\
    (EVE_DL_OPTIMIZE cfg = true -> EVE_DL_END_PRIMITIVE cfg = false ->
       h' = h) /\
    (EVE_DL_OPTIMIZE cfg = false -> h' = emit END h).
Proof.
  unfold EVE_CoDl_end.
  destruct (EVE_DL_OPTIMIZE cfg), (EVE_DL_END_PRIMITIVE cfg); simpl.
  - destruct (Z.eqb_spec (DlPrimitive h) 0) as [E | E]; simpl;
      (eexists; split; [reflexivity |]); simpl;
      repeat split; intros; try discriminate; try congruence.
  - exists h. repeat split; intros; discriminate.
  - exists (emit END h). repeat split; intros; discriminate.
  - exists (emit END h). repeat split; intros; discriminate.
Qed.

Lemma end_emission_witness :
  exists h' : EVE_HalContext,
    EVE_CoDl_end cfg_cached_end host_rects = Some h' /\
    DlPrimitive h' = 0 /\ CoCmdDl h' = [END].
Proof.
  destruct (end_emission cfg_cached_end host_rects)
    as (h' & He & _ & _ & Hon & _).
  destruct (Hon eq_refl eq_refl) as (Hp & Hw & _).
  exists h'. split; [exact He |]. split; [exact Hp |].
  apply Hw. simpl. lia.
Defined.

(** C6 as stated fails in two configurations.  With caching on and explicit
    END off, [end] leaves the open primitive active; with caching off and
    explicit END off, [end] writes [END] although no primitive is active and
    explicit END is disabled. *)
Lemma end_emission_counterexample :
  (EVE_DL_OPTIMIZE cfg_cached = true /\
   EVE_DL_END_PRIMITIVE cfg_cached = false /\
   DlPrimitive host_rects = 9 /\
   exists h' : EVE_HalContext,
     EVE_CoDl_end cfg_cached host_rects = Some h' /\
     DlPrimitive h' = 9 /\ DlPrimitive h' <> 0) /\
  (EVE_DL_OPTIMIZE cfg_plain = false /\
   EVE_DL_END_PRIMITIVE cfg_plain = false /\
   DlPrimitive host_sample = 0 /\
   exists h' : EVE_HalContext,
     EVE_CoDl_end cfg_plain host_sample = Some h' /\
     CoCmdDl h' = CoCmdDl host_sample ++ [END]).
Proof.
  split.
  - repeat split. eexists. split; [reflexivity |]. simpl. split; [reflexivity | lia].
  - repeat split. eexists. split; reflexivity.
Qed.

(** ** The bitmap transform (spec section 4.2) *)

Lemma exec_coefficient_setter (cfg : EVE_Config) (gpu : EVE_GpuDefs)
    (c : CoDlCall) :
  is_coefficient_setter c = true ->
  exec cfg gpu c = coefficient_setter cfg (coefficient_word c).
Proof. destruct c; intros H; try discriminate H; reflexivity. Qed.

Lemma with_BitmapTransform_twice (b b' : bool) (st : EVE_HalDlState) :
  with_BitmapTransform b (with_BitmapTransform b' st)
  = with_BitmapTransform b st.
Proof. reflexivity. Qed.

Lemma coefficient_setter_spec (cfg : EVE_Config) (w : DlWord)
    (h : EVE_HalContext) (st : EVE_HalDlState) :
  EVE_DL_OPTIMIZE cfg = true ->
  EVE_DL_STATE h = Some st ->
  exists h' : EVE_HalContext,
    coefficient_setter cfg w h = Some h' /\
    CoCmdDl h' = CoCmdDl h ++ [w] /\
    EVE_DL_STATE h' = Some (with_BitmapTransform true st).
Proof.
  intros Hopt Hst. unfold coefficient_setter, seq_op, when.
  rewrite Hopt, EVE_CoCmd_dl_eq; simpl.
  rewrite (assign_EVE_DL_STATE_eq _ _ st) by exact Hst.
  eexists. split; [reflexivity |]. split; [reflexivity |].
  apply (EVE_DL_STATE_put_state _ st), Hst.
Qed.

Lemma coefficient_chain (cfg : EVE_Config) (pre : DlOp) (w : DlWord)
    (h : EVE_HalContext) (ws : list DlWord) (st : EVE_HalDlState) :
  EVE_DL_OPTIMIZE cfg = true ->
  (exists h1 : EVE_HalContext,
     pre h = Some h1 /\ CoCmdDl h1 = CoCmdDl h ++ ws /\
     EVE_DL_STATE h1 = Some (with_BitmapTransform true st)) ->
  exists h2 : EVE_HalContext,
    (pre ;> coefficient_setter cfg w) h = Some h2 /\
    CoCmdDl h2 = CoCmdDl h ++ (ws ++ [w]) /\
    EVE_DL_STATE h2 = Some (with_BitmapTransform true st).
Proof.
  intros Hopt (h1 & H1 & Hw1 & Hs1).
  destruct (coefficient_setter_spec cfg w h1 _ Hopt Hs1) as (h2 & H2 & Hw2 & Hs2).
  exists h2. unfold seq_op. rewrite H1. split; [exact H2 |]. split.
  - rewrite Hw2, Hw1. symmetry. apply app_assoc.
  - exact Hs2.
Qed.

Lemma identity_calls_spec (cfg : EVE_Config) (h : EVE_HalContext)
    (st : EVE_HalDlState) :
  EVE_DL_OPTIMIZE cfg = true ->
  EVE_DL_STATE h = Some st ->
  exists h' : EVE_HalContext,
    bitmapTransform_identity_calls cfg h = Some h' /\
    CoCmdDl h' = CoCmdDl h ++ identity_words /\
    EVE_DL_STATE h' = Some (with_BitmapTransform true st).
Proof.
  intros Hopt Hst.
  change (bitmapTransform_identity_calls cfg)
    with (coefficient_setter cfg (BITMAP_TRANSFORM_A_EXT false 256) ;>
          coefficient_setter cfg (BITMAP_TRANSFORM_B_EXT false 0) ;>
          coefficient_setter cfg (BITMAP_TRANSFORM_C 0) ;>
          coefficient_setter cfg (BITMAP_TRANSFORM_D_EXT false 0) ;>
          coefficient_setter cfg (BITMAP_TRANSFORM_E_EXT false 256) ;>
          coefficient_setter cfg (BITMAP_TRANSFORM_F 0)).
  change identity_words
    with ((((([BITMAP_TRANSFORM_A_EXT false 256]
              ++ [BITMAP_TRANSFORM_B_EXT false 0])
             ++ [BITMAP_TRANSFORM_C 0])
            ++ [BITMAP_TRANSFORM_D_EXT false 0])
           ++ [BITMAP_TRANSFORM_E_EXT false 256])
          ++ [BITMAP_TRANSFORM_F 0]).
  do 5 (apply coefficient_chain; [exact Hopt |]).
  apply coefficient_setter_spec; assumption.
Qed.

Lemma identity_hit (cfg : EVE_Config) (h : EVE_HalContext) (st : EVE_HalDlState) :
  EVE_DL_OPTIMIZE cfg = true ->
  EVE_DL_STATE h = Some st ->
  BitmapTransform st = false ->
  EVE_CoDl_bitmapTransform_identity cfg h = Some h.
Proof.
  intros Hopt Hst Hb. unfold EVE_CoDl_bitmapTransform_identity.
  rewrite Hopt, Hst; simpl. rewrite Hb. reflexivity.
Qed.

Lemma identity_miss (cfg : EVE_Config) (h : EVE_HalContext) (st : EVE_HalDlState) :
  EVE_DL_OPTIMIZE cfg = true ->
  EVE_DL_STATE h = Some st ->
  BitmapTransform st = true ->
  exists h' : EVE_HalContext,
    EVE_CoDl_bitmapTransform_identity cfg h = Some h' /\
    CoCmdDl h' = CoCmdDl h ++ identity_words /\
    EVE_DL_STATE h' = Some (with_BitmapTransform false st).
Proof.
  intros Hopt Hst Hb. unfold EVE_CoDl_bitmapTransform_identity.
  rewrite Hopt, Hst; simpl. rewrite Hb.
  destruct (identity_calls_spec cfg h st Hopt Hst) as (h1 & H1 & Hw1 & Hs1).
  unfold seq_op. rewrite H1; simpl.
  rewrite (assign_EVE_DL_STATE_eq _ _ _ Hs1).
  eexists. split; [reflexivity |]. split; [exact Hw1 |].
  rewrite (EVE_DL_STATE_put_state _ _ _ Hs1). reflexivity.
Qed.

Lemma resetDlState_spec (defaults : EVE_HalDlState) (h : EVE_HalContext) :
  DlState h <> [] ->
  exists h0 : EVE_HalContext,
    EVE_CoDlImpl_resetDlState defaults h = Some h0 /\
    DlStateIndex h0 = 0 /\ DlPrimitive h0 = 0 /\
    EVE_DL_STATE h0 = Some (with_BitmapTransform false defaults).
Proof.
  intros Hne. unfold EVE_CoDlImpl_resetDlState, seq_op, assign_DlStateIndex,
    assign_DlState, assign_DlPrimitive; simpl.
  assert (Hlen : 0 <= 0 < Z.of_nat (length (DlState h))).
  { destruct (DlState h); [contradiction | simpl; lia]. }
  rewrite array_set_Some by exact Hlen. simpl.
  eexists. split; [reflexivity |]. repeat split.
  unfold EVE_DL_STATE; simpl. apply (array_get_insert_eq _ 0), Hlen.
Qed.

(** C7. With caching enabled, the identity-transform call returns the
    context it was given when the active shadow state records the identity
    (flag [BitmapTransform] false), as it does right after a reset; after
    any single coefficient setter, which raises the flag, it writes exactly
    the six words A = 256, B = 0, C = 0, D = 0, E = 256, F = 0 in that
    order and records the identity again. *)
Theorem bitmapTransform_identity_skip (cfg : EVE_Config) (gpu : EVE_GpuDefs) :
  EVE_DL_OPTIMIZE cfg = true ->
  (forall (h : EVE_HalContext) (st : EVE_HalDlState),
     EVE_DL_STATE h = Some st -> BitmapTransform st = false ->
     exec cfg gpu CoDl_bitmapTransform_identity h = Some h) /\
  (forall (defaults : EVE_HalDlState) (h : EVE_HalContext),
     DlState h <> [] ->
     exists h0 : EVE_HalContext,
       EVE_CoDlImpl_resetDlState defaults h = Some h0 /\
       BitmapTransform <$> EVE_DL_STATE h0 = Some false /\
       exec cfg gpu CoDl_bitmapTransform_identity h0 = Some h0) /\
  (forall (c : CoDlCall) (h : EVE_HalContext) (st : EVE_HalDlState),
     is_coefficient_setter c = true ->
     EVE_DL_STATE h = Some st ->
     exists h1 h2 : EVE_HalContext,
       exec cfg gpu c h = Some h1 /\
       CoCmdDl h1 = CoCmdDl h ++ [coefficient_word c] /\
       BitmapTransform <$> EVE_DL_STATE h1 = Some true /\
       exec cfg gpu CoDl_bitmapTransform_identity h1 = Some h2 /\
       CoCmdDl h2 = CoCmdDl h1 ++ identity_words /\
       BitmapTransform <$> EVE_DL_STATE h2 = Some false /\
       exec cfg gpu CoDl_bitmapTransform_identity h2 = Some h2).
Proof.
  intros Hopt. split; [| split].
  - intros h st Hst Hb. simpl. apply (identity_hit cfg h st); assumption.
  - intros defaults h Hne.
    destruct (resetDlState_spec defaults h Hne) as (h0 & H0 & _ & _ & Hs0).
    exists h0. split; [exact H0 |]. rewrite Hs0. split; [reflexivity |].
    simpl. apply (identity_hit cfg h0 _ Hopt Hs0). reflexivity.
  - intros c h st Hc Hst. rewrite (exec_coefficient_setter cfg gpu c Hc).
    destruct (coefficient_setter_spec cfg (coefficient_word c) h st Hopt Hst)
      as (h1 & H1 & Hw1 & Hs1).
    destruct (identity_miss cfg h1 _ Hopt Hs1 eq_refl) as (h2 & H2 & Hw2 & Hs2).
    exists h1, h2. simpl. rewrite Hs1, Hs2.
    repeat split; try assumption.
    apply (identity_hit cfg h2 _ Hopt Hs2). reflexivity.
Qed.

Lemma bitmapTransform_identity_skip_witness :
  EVE_DL_OPTIMIZE cfg_cached = true /\
  is_coefficient_setter (CoDl_bitmapTransformA 300) = true /\
  EVE_DL_STATE host_sample = Some st_sample /\
  exec cfg_cached gpu_sample CoDl_bitmapTransform_identity host_sample
  = Some host_sample /\
  exists h1 h2 : EVE_HalContext,
    exec cfg_cached gpu_sample (CoDl_bitmapTransformA 300) host_sample
    = Some h1 /\
    CoCmdDl h1 = [BITMAP_TRANSFORM_A 300] /\
    BitmapTransform <$> EVE_DL_STATE h1 = Some true /\
    exec cfg_cached gpu_sample CoDl_bitmapTransform_identity h1 = Some h2 /\
    CoCmdDl h2 = CoCmdDl h1 ++ identity_words /\
    BitmapTransform <$> EVE_DL_STATE h2 = Some false /\
    exec cfg_cached gpu_sample CoDl_bitmapTransform_identity h2 = Some h2.
Proof.
  pose proof (bitmapTransform_identity_skip cfg_cached gpu_sample eq_refl)
    as (Hskip & _ & Hset).
  split; [reflexivity |]. split; [reflexivity |]. split; [reflexivity |].
  split.
  - apply (Hskip host_sample st_sample); reflexivity.
  - apply (Hset (CoDl_bitmapTransformA 300) host_sample st_sample); reflexivity.
Defined.

(** ** The scissor cache (spec sections 4.1 and 6) *)





(** ** Further properties of the encoder *)

(** *** What a call sequence writes *)

Lemma expands_skip (cfg : EVE_Config) : expands cfg skip [].
Proof.
  intros h _. exists h, [].
  split; [reflexivity |]. split; [apply frame_refl |].
  split; [symmetry; apply app_nil_r |]. split; [constructor | reflexivity].
Qed.

Lemma expands_EVE_CoCmd_dl (cfg : EVE_Config) (w : DlWord) :
  expands cfg (EVE_CoCmd_dl w) [w].
Proof.
  intros h _. exists (emit w h), [w].
  split; [reflexivity |]. split; [apply frame_emit |].
  split; [reflexivity |]. split; reflexivity.
Qed.

Lemma expands_assign_EVE_DL_STATE (cfg : EVE_Config)
    (upd : EVE_HalDlState -> EVE_HalDlState) :
  expands cfg (assign_EVE_DL_STATE upd) [].
Proof.
  intros h Hl. destruct (framed_assign_EVE_DL_STATE upd h Hl) as (h' & He & Hf).
  exists h', []. split; [exact He |]. split; [exact Hf |]. split.
  - rewrite app_nil_r. destruct (proj1 (live_EVE_DL_STATE h) Hl) as [st Hst].
    rewrite (assign_EVE_DL_STATE_eq _ _ st Hst) in He. inversion He. reflexivity.
  - split; [constructor | reflexivity].
Qed.

Lemma expands_seq (cfg : EVE_Config) (f g : DlOp) (ws1 ws2 ws : list DlWord) :
  expands cfg f ws1 -> expands cfg g ws2 -> ws = ws1 ++ ws2 ->
  expands cfg (f ;> g) ws.
Proof.
  intros Hf Hg -> h Hl.
  destruct (Hf h Hl) as (h1 & w1 & H1 & F1 & E1 & S1 & O1).
  destruct (Hg h1 (frame_live _ _ F1 Hl)) as (h2 & w2 & H2 & F2 & E2 & S2 & O2).
  exists h2, (w1 ++ w2). split; [unfold seq_op; rewrite H1; exact H2 |].
  split; [eapply frame_trans; eassumption |]. split.
  - rewrite E2, E1. symmetry. apply app_assoc.
  - split; [apply sublist_app; assumption |].
    intros Ho. rewrite O1, O2 by exact Ho. reflexivity.
Qed.

Lemma expands_when (cfg : EVE_Config) (b : bool) (f : DlOp) :
  expands cfg f [] -> expands cfg (when b f) [].
Proof. intros Hf. destruct b; [exact Hf | apply expands_skip]. Qed.

Lemma expands_guarded (cfg : EVE_Config) (b : bool)
    (test : EVE_HalDlState -> bool) (f g : DlOp) (ws : list DlWord) :
  (b = true -> EVE_DL_OPTIMIZE cfg = true) ->
  expands cfg f ws -> expands cfg g ws ->
  expands cfg (fun h =>
                 if b then st ← EVE_DL_STATE h; if test st then f h else Some h
                 else g h) ws.
Proof.
  intros Hb Hf Hg h Hl. destruct b; [| apply Hg, Hl].
  destruct (proj1 (live_EVE_DL_STATE h) Hl) as [st Hst]. rewrite Hst; simpl.
  destruct (test st); [apply Hf, Hl |].
  exists h, [].
  split; [reflexivity |]. split; [apply frame_refl |].
  split; [symmetry; apply app_nil_r |]. split; [apply sublist_nil_l |].
  rewrite Hb by reflexivity. discriminate.
Qed.

Ltac solve_expands :=
  first
    [ apply expands_skip
    | apply expands_EVE_CoCmd_dl
    | apply expands_assign_EVE_DL_STATE
    | apply expands_when; solve_expands
    | eapply expands_seq; [solve_expands | solve_expands | reflexivity] ].

Lemma expands_cached_setter (cfg : EVE_Config) (f : CachedField) (v : Z) :
  expands cfg (cached_setter cfg f v) [field_word f v].
Proof.
  unfold cached_setter.
  apply (expands_guarded cfg _
           (fun st => negb (field_value f v =? field_get f st)));
    [auto | solve_expands | solve_expands].
Qed.

Lemma expands_coefficient_setter (cfg : EVE_Config) (w : DlWord) :
  expands cfg (coefficient_setter cfg w) [w].
Proof. unfold coefficient_setter. solve_expands. Qed.

Lemma expands_identity_calls (cfg : EVE_Config) :
  expands cfg (bitmapTransform_identity_calls cfg) identity_words.
Proof.
  unfold bitmapTransform_identity_calls.
  repeat (eapply expands_seq;
          [| apply (expands_coefficient_setter cfg) |]);
    [apply (expands_coefficient_setter cfg) | reflexivity ..].
Qed.

Lemma expands_exec (cfg : EVE_Config) (gpu : EVE_GpuDefs) (c : CoDlCall) :
  is_setter c = true -> expands cfg (exec cfg gpu c) (full_words gpu c).
Proof.
  pose proof (expands_cached_setter cfg) as Hc.
  pose proof (expands_coefficient_setter cfg) as Hk.
  destruct c; intros Hs; try discriminate Hs; simpl;
    try (unfold EVE_CoDl_display, EVE_CoDl_vertex2f, EVE_CoDl_vertex2ii,
           EVE_CoDl_bitmapSource, EVE_CoDl_bitmapSource_ex,
           EVE_CoDl_clearColorRgb_ex, EVE_CoDl_clearColorRgb,
           EVE_CoDl_clearColorA, EVE_CoDl_clearColorArgb_ex, EVE_CoDl_tag,
           EVE_CoDl_bitmapLayout, EVE_CoDl_bitmapSize, EVE_CoDl_alphaFunc,
           EVE_CoDl_stencilFunc, EVE_CoDl_blendFunc_default, EVE_CoDl_blendFunc,
           EVE_CoDl_stencilOp, EVE_CoDl_clearStencil, EVE_CoDl_clearTag,
           EVE_CoDl_stencilMask, EVE_CoDl_tagMask, EVE_CoDl_call, EVE_CoDl_jump,
           EVE_CoDl_colorMask, EVE_CoDl_return, EVE_CoDl_macro, EVE_CoDl_clear,
           EVE_CoDl_vertexTranslateX, EVE_CoDl_vertexTranslateY, EVE_CoDl_nop,
           EVE_CoDl_clearColorRgb_ex, EVE_CoDl_clearColorA;
         solve [solve_expands]);
    try (apply (Hk _)).
  - apply (Hc Cached_ColorRGB).
  - apply (Hc Cached_ColorRGB).
  - apply (Hc Cached_ColorA).
  - eapply expands_seq;
      [apply (Hc Cached_ColorRGB) | apply (Hc Cached_ColorA) | reflexivity].
  - apply (Hc Cached_Handle).
  - apply (Hc Cached_Cell).
  - apply (Hc Cached_PointSize).
  - apply (Hc Cached_LineWidth).
  - unfold EVE_CoDl_bitmapTransform_identity.
    apply (expands_guarded cfg _ BitmapTransform); [auto | |].
    + eapply expands_seq;
        [apply expands_identity_calls | apply expands_assign_EVE_DL_STATE
        | symmetry; apply app_nil_r].
    + apply expands_identity_calls.
  - unfold EVE_CoDl_scissorXY.
    apply (expands_guarded cfg _
             (fun st => negb (ScissorX st =? x) || negb (ScissorY st =? y)));
      [intros [H _]%andb_true_iff; exact H | solve_expands | solve_expands].
  - unfold EVE_CoDl_scissorSize.
    apply (expands_guarded cfg _
             (fun st => negb (ScissorWidth st =? width)
                        || negb (ScissorHeight st =? height)));
      [intros [H _]%andb_true_iff; exact H | solve_expands | solve_expands].
  - apply (Hc Cached_VertexFormat).
  - apply (Hc Cached_PaletteSource).
  - unfold EVE_CoDl_vertex2f_4.
    destruct ((EVE_VERTEX2F_MAX <? x) || (EVE_VERTEX2F_MAX <? y));
      (eapply expands_seq;
       [apply (Hc Cached_VertexFormat) | apply expands_EVE_CoCmd_dl
       | reflexivity]).
  - eapply expands_seq;
      [apply (Hc Cached_VertexFormat) | apply expands_EVE_CoCmd_dl | reflexivity].
  - eapply expands_seq;
      [apply (Hc Cached_VertexFormat) | apply expands_EVE_CoCmd_dl | reflexivity].
Qed.

Ltac words_done Hwf :=
  split; [exact Hwf |];
  split; [first [reflexivity | symmetry; apply app_nil_r] |];
  split; [first [reflexivity | apply sublist_nil_l]
         | let Ho := fresh in
           intros Ho; first [reflexivity | discriminate Ho]].

Lemma exec_words (cfg : EVE_Config) (gpu : EVE_GpuDefs) (k : Z)
    (c : CoDlCall) (h : EVE_HalContext) :
  stack_pow2 cfg k -> wf_host cfg h ->
  exists (h' : EVE_HalContext) (ws : list DlWord),
    exec cfg gpu c h = Some h' /\ wf_host cfg h' /\
    CoCmdDl h' = CoCmdDl h ++ ws /\
    sublist ws (full_words gpu c) /\
    (EVE_DL_OPTIMIZE cfg = false -> ws = full_words gpu c).
Proof.
  intros Hp Hwf.
  destruct (is_setter c) eqn:Hs.
  { destruct (expands_exec cfg gpu c Hs h (wf_host_live _ _ Hwf))
      as (h' & ws & He & Hf & Hw & Hsub & Hoff).
    exists h', ws. split; [exact He |].
    split; [eapply frame_wf_host; eassumption | auto]. }
  destruct c; try discriminate Hs; simpl.
  - unfold EVE_CoDl_begin. destruct (EVE_DL_OPTIMIZE cfg) eqn:Hopt;
      [destruct (negb (prim =? reset_continuous gpu (DlPrimitive h))) |];
      eexists _, _; (split; [reflexivity |]); words_done Hwf.
  - unfold EVE_CoDl_end.
    destruct (EVE_DL_OPTIMIZE cfg) eqn:Hopt, (EVE_DL_END_PRIMITIVE cfg); simpl;
      try destruct (negb (DlPrimitive h =? 0));
      eexists _, _; (split; [reflexivity |]); words_done Hwf.
  - destruct (exec_wf_host cfg gpu k CoDl_saveContext h Hp Hwf)
      as (h' & He & Hwf' & _). simpl in He.
    exists h', [SAVE_CONTEXT]. split; [exact He |].
    destruct (has_dl_state cfg) eqn:Hd.
    + destruct (saveContext_spec cfg k h Hp Hd Hwf) as (h1 & H1 & Hw & _).
      assert (h1 = h') by congruence. subst h1. auto.
    + rewrite saveContext_no_state in He by exact Hd.
      inversion He; subst h'. auto.
  - destruct (exec_wf_host cfg gpu k CoDl_restoreContext h Hp Hwf)
      as (h' & He & Hwf' & _). simpl in He.
    exists h', [RESTORE_CONTEXT]. split; [exact He |].
    destruct (has_dl_state cfg) eqn:Hd.
    + destruct (restoreContext_spec cfg k h Hp Hd) as (h1 & H1 & Hw & _).
      assert (h1 = h') by congruence. subst h1. auto.
    + rewrite restoreContext_no_state in He by exact Hd.
      inversion He; subst h'. auto.
Qed.

(** X1. On a well-formed context every sequence of calls returns; it only
    appends to the display list, the appended words are a subsequence of
    the concatenated bodies of the calls (the cache removes words, it never
    adds or reorders them), and with caching off they are exactly the
    concatenated bodies. *)
Theorem display_list_within_full_expansion
    (cfg : EVE_Config) (gpu : EVE_GpuDefs) (k : Z)
    (cs : list CoDlCall) (h : EVE_HalContext) :
  stack_pow2 cfg k -> wf_host cfg h ->
  exists (h' : EVE_HalContext) (ws : list DlWord),
    run cfg gpu cs h = Some h' /\
    CoCmdDl h' = CoCmdDl h ++ ws /\
    sublist ws (concat (map (full_words gpu) cs)) /\
    (EVE_DL_OPTIMIZE cfg = false -> ws = concat (map (full_words gpu) cs)).
Proof.
  intros Hp. revert h. induction cs as [| c cs IH]; intros h Hwf; simpl.
  - exists h, []. split; [reflexivity |]. split; [symmetry; apply app_nil_r |].
    split; [constructor | reflexivity].
  - destruct (exec_words cfg gpu k c h Hp Hwf)
      as (h1 & w1 & H1 & Hwf1 & E1 & S1 & O1).
    destruct (IH h1 Hwf1) as (h2 & w2 & H2 & E2 & S2 & O2).
    exists h2, (w1 ++ w2). split; [unfold seq_op; rewrite H1; exact H2 |].
    split; [rewrite E2, E1; symmetry; apply app_assoc |].
    split; [apply sublist_app; assumption |].
    intros Ho. rewrite O1, O2 by exact Ho. reflexivity.
Qed.

Lemma display_list_within_full_expansion_witness :
  stack_pow2 cfg_cached 2 /\ wf_host cfg_cached host_sample /\
  exists (h' : EVE_HalContext) (ws : list DlWord),
    run cfg_cached gpu_sample calls_sample host_sample = Some h' /\
    CoCmdDl h' = CoCmdDl host_sample ++ ws /\
    sublist ws (concat (map (full_words gpu_sample) calls_sample)).
Proof.
  split; [exact stack_pow2_cfg_cached |]. split; [exact wf_host_sample |].
  destruct (display_list_within_full_expansion cfg_cached gpu_sample 2
              calls_sample host_sample stack_pow2_cfg_cached wf_host_sample)
    as (h' & ws & Hr & Hw & Hs & _).
  exists h', ws. auto.
Defined.

Lemma write_only_exec_emit_all
    (cfg : EVE_Config) (gpu : EVE_GpuDefs) (c : CoDlCall) (h : EVE_HalContext) :
  is_write_only c = true ->
  exec cfg gpu c h = Some (emit_all (full_words gpu c) h).
Proof.
  destruct h as [i p a d].
  destruct c; intros Hc; try discriminate Hc; unfold emit_all; simpl;
    unfold EVE_CoDl_display, EVE_CoDl_vertex2f, EVE_CoDl_vertex2ii,
      EVE_CoDl_bitmapSource, EVE_CoDl_bitmapSource_ex,
      EVE_CoDl_clearColorArgb_ex, EVE_CoDl_clearColorRgb_ex,
      EVE_CoDl_clearColorRgb, EVE_CoDl_clearColorA, EVE_CoDl_tag,
      EVE_CoDl_bitmapLayout, EVE_CoDl_bitmapSize, EVE_CoDl_alphaFunc,
      EVE_CoDl_stencilFunc, EVE_CoDl_blendFunc_default, EVE_CoDl_blendFunc,
      EVE_CoDl_stencilOp, EVE_CoDl_clearStencil, EVE_CoDl_clearTag,
      EVE_CoDl_stencilMask, EVE_CoDl_tagMask, EVE_CoDl_call, EVE_CoDl_jump,
      EVE_CoDl_colorMask, EVE_CoDl_return, EVE_CoDl_macro, EVE_CoDl_clear,
      EVE_CoDl_vertexTranslateX, EVE_CoDl_vertexTranslateY, EVE_CoDl_nop,
      seq_op, EVE_CoCmd_dl, skip; simpl;
    rewrite <- ?app_assoc, ?app_nil_r; reflexivity.
Qed.

(** X2. A function whose body is only calls of [EVE_CoCmd_dl] writes the
    words of its body in every configuration and from every context, also
    one whose index is outside the snapshot array, and leaves the index,
    the active primitive and the snapshots as they are. *)
Theorem write_only_calls_ignore_state
    (cfg : EVE_Config) (gpu : EVE_GpuDefs) (c : CoDlCall) (h : EVE_HalContext) :
  is_write_only c = true ->
  exists h' : EVE_HalContext,
    exec cfg gpu c h = Some h' /\
    CoCmdDl h' = CoCmdDl h ++ full_words gpu c /\
    DlStateIndex h' = DlStateIndex h /\
    DlPrimitive h' = DlPrimitive h /\
    DlState h' = DlState h.
Proof.
  intros Hc. exists (emit_all (full_words gpu c) h).
  split; [apply write_only_exec_emit_all, Hc |]. repeat split.
Qed.

Lemma write_only_calls_ignore_state_witness :
  is_write_only (CoDl_clearColorArgb_ex 0x80102030) = true /\
  array_get (DlState host_no_state) (DlStateIndex host_no_state) = None /\
  exists h' : EVE_HalContext,
    exec cfg_cached gpu_sample (CoDl_clearColorArgb_ex 0x80102030) host_no_state
    = Some h' /\
    CoCmdDl h' = [WORD_OR (CLEAR_COLOR_RGB 0 0 0) 0x102030; CLEAR_COLOR_A 128] /\
    DlState h' = DlState host_no_state.
Proof.
  split; [reflexivity |]. split; [reflexivity |].
  destruct (write_only_calls_ignore_state cfg_cached gpu_sample
              (CoDl_clearColorArgb_ex 0x80102030) host_no_state eq_refl)
    as (h' & He & Hw & _ & _ & Hd).
  exists h'. auto.
Defined.

(** *** Colours *)

Lemma field_with_get (f : CachedField) (st : EVE_HalDlState) :
  field_with f (field_get f st) st = st.
Proof. destruct f, st; reflexivity. Qed.

(** A cacheable setter with caching on, from any state. *)
Lemma cached_setter_result (cfg : EVE_Config) (f : CachedField) (v : Z)
    (h : EVE_HalContext) (st : EVE_HalDlState) :
  EVE_DL_OPTIMIZE cfg = true ->
  EVE_DL_STATE h = Some st ->
  exists h' : EVE_HalContext,
    cached_setter cfg f v h = Some h' /\
    CoCmdDl h' = CoCmdDl h ++ setter_words f v st /\
    EVE_DL_STATE h' = Some (field_with f (field_value f v) st) /\
    DlStateIndex h' = DlStateIndex h /\ DlPrimitive h' = DlPrimitive h.
Proof.
  intros Hopt Hst. unfold setter_words.
  destruct (Z.eqb_spec (field_get f st) (field_value f v)) as [E | E].
  - exists h. rewrite (cached_setter_hit cfg f v h st) by assumption.
    rewrite app_nil_r, <- E, field_with_get. auto.
  - rewrite (cached_setter_miss cfg f v h st) by assumption.
    eexists. split; [reflexivity |]. simpl. repeat split.
    apply (EVE_DL_STATE_put_state _ st), Hst.
Qed.

Lemma lor_shiftl_add (hi lo n : Z) :
  0 <= n -> 0 <= lo < 2 ^ n ->
  Z.lor (Z.shiftl hi n) lo = hi * 2 ^ n + lo.
Proof.
  intros Hn Hlo.
  assert (H0 : Z.land (Z.shiftl hi n) lo = 0).
  { apply Z.bits_inj'. intros i Hi. rewrite Z.land_spec, Z.bits_0.
    destruct (Z.lt_ge_cases i n) as [Hlt | Hge].
    - rewrite Z.shiftl_spec_low by exact Hlt. reflexivity.
    - rewrite <- (Z.mod_small lo (2 ^ n)) by exact Hlo.
      rewrite Z.mod_pow2_bits_high by lia. apply andb_false_r. }
  rewrite <- Z.lxor_lor, <- Z.add_nocarry_lxor by exact H0.
  rewrite Z.shiftl_mul_pow2 by exact Hn. reflexivity.
Qed.

Lemma pack_rgb24 (r g b : Z) :
  is_uint8 r -> is_uint8 g -> is_uint8 b ->
  Z.lor (Z.lor (Z.shiftl r 16) (Z.shiftl g 8)) b = rgb24 r g b.
Proof.
  unfold is_uint8, rgb24. intros Hr Hg Hb.
  replace (Z.shiftl r 16) with (Z.shiftl (Z.shiftl r 8) 8)
    by (rewrite Z.shiftl_shiftl by lia; reflexivity).
  rewrite <- Z.shiftl_lor.
  rewrite (lor_shiftl_add _ b 8) by (change (2 ^ 8) with 256; lia).
  rewrite (lor_shiftl_add r g 8) by (change (2 ^ 8) with 256; lia).
  change (2 ^ 8) with 256. lia.
Qed.

Lemma rgb24_range (r g b : Z) :
  is_uint8 r -> is_uint8 g -> is_uint8 b -> 0 <= rgb24 r g b < 2 ^ 24.
Proof.
  unfold is_uint8, rgb24. change (2 ^ 24) with 16777216. lia.
Qed.

Lemma split_argb (c : Z) :
  is_uint32 c ->
  to_uint8 (Z.shiftr c 24) = c / 2 ^ 24 /\
  Z.land c 0xFFFFFF = c mod 2 ^ 24 /\
  0 <= c / 2 ^ 24 < 256.
Proof.
  unfold is_uint32. intros Hc.
  assert (Hd : 0 <= c / 2 ^ 24 < 256).
  { split; [apply Z.div_pos; lia |].
    apply Z.div_lt_upper_bound; [lia |]. change (2 ^ 24 * 256) with 4294967296.
    lia. }
  split; [| split; [| exact Hd]].
  - rewrite Z.shiftr_div_pow2 by lia. apply to_uint8_small, Hd.
  - change 16777215 with (Z.ones 24). apply Z.land_ones. lia.
Qed.

(** X3. With caching on, [colorArgb_ex(c)] for a 32-bit [c] caches the low
    24 bits and the top byte independently: it writes the colour word only
    if [c & 0xFFFFFF] is not the cached colour, then the alpha word only if
    [c >> 24] is not the cached alpha, and leaves both parts in the shadow
    state, from which [c] is recovered as [ColorA * 2^24 + ColorRGB]. *)
Theorem colorArgb_ex_caches_both_parts
    (cfg : EVE_Config) (gpu : EVE_GpuDefs) (c : Z)
    (h : EVE_HalContext) (st : EVE_HalDlState) :
  EVE_DL_OPTIMIZE cfg = true ->
  EVE_DL_STATE h = Some st ->
  is_uint32 c ->
  exists (h' : EVE_HalContext) (st' : EVE_HalDlState),
    exec cfg gpu (CoDl_colorArgb_ex c) h = Some h' /\
    CoCmdDl h' = CoCmdDl h
                 ++ (if ColorRGB st =? c mod 2 ^ 24 then []
                     else [WORD_OR (COLOR_RGB 0 0 0) (Z.land c 0xFFFFFF)])
                 ++ (if ColorA st =? c / 2 ^ 24 then []
                     else [COLOR_A (c / 2 ^ 24)]) /\
    EVE_DL_STATE h' = Some st' /\
    st' = with_ColorA (c / 2 ^ 24) (with_ColorRGB (c mod 2 ^ 24) st) /\
    ColorA st' * 2 ^ 24 + ColorRGB st' = c.
Proof.
  intros Hopt Hst Hc. destruct (split_argb c Hc) as (Ha & Hrgb & Hd).
  simpl. unfold EVE_CoDl_colorArgb_ex, seq_op. rewrite Ha.
  change (EVE_CoDl_colorRgb_ex cfg c) with (cached_setter cfg Cached_ColorRGB c).
  change (EVE_CoDl_colorA cfg (c / 2 ^ 24))
    with (cached_setter cfg Cached_ColorA (c / 2 ^ 24)).
  destruct (cached_setter_result cfg Cached_ColorRGB c h st Hopt Hst)
    as (h1 & H1 & W1 & S1 & _).
  destruct (cached_setter_result cfg Cached_ColorA (c / 2 ^ 24) h1 _ Hopt S1)
    as (h2 & H2 & W2 & S2 & _).
  rewrite H1; simpl. exists h2, (with_ColorA (c / 2 ^ 24)
                                    (with_ColorRGB (c mod 2 ^ 24) st)).
  split; [exact H2 |]. split; [| split; [| split]].
  - rewrite W2, W1, <- app_assoc. unfold setter_words; simpl.
    rewrite Hrgb. reflexivity.
  - rewrite S2. simpl. rewrite Hrgb. reflexivity.
  - reflexivity.
  - simpl. pose proof (Z.div_mod c (2 ^ 24)). lia.
Qed.

Lemma colorArgb_ex_caches_both_parts_witness :
  EVE_DL_OPTIMIZE cfg_cached = true /\
  EVE_DL_STATE host_sample = Some st_sample /\
  is_uint32 0x80FFFFFF /\
  exists h' : EVE_HalContext,
    exec cfg_cached gpu_sample (CoDl_colorArgb_ex 0x80FFFFFF) host_sample
    = Some h' /\
    CoCmdDl h' = [COLOR_A 128] /\
    ColorA <$> EVE_DL_STATE h' = Some 128 /\
    ColorRGB <$> EVE_DL_STATE h' = Some 0xFFFFFF.
Proof.
  assert (Hc : is_uint32 0x80FFFFFF) by (unfold is_uint32; lia).
  split; [reflexivity |]. split; [reflexivity |]. split; [exact Hc |].
  destruct (colorArgb_ex_caches_both_parts cfg_cached gpu_sample 0x80FFFFFF
              host_sample st_sample eq_refl eq_refl Hc)
    as (h' & st' & He & Hw & Hs & -> & _).
  exists h'. split; [exact He |]. split; [exact Hw |].
  rewrite Hs. split; reflexivity.
Defined.

(** X4. With caching on and 8-bit components, [colorRgb(r, g, b)] is
    suppressed exactly when the cached colour is
    [r * 65536 + g * 256 + b]; otherwise it writes one word carrying that
    value and caches it.  Different component triples give different
    values, so a change of any component is never suppressed. *)
Theorem colorRgb_suppressed_iff_same_triple
    (cfg : EVE_Config) (gpu : EVE_GpuDefs) (r g b : Z)
    (h : EVE_HalContext) (st : EVE_HalDlState) :
  EVE_DL_OPTIMIZE cfg = true ->
  EVE_DL_STATE h = Some st ->
  is_uint8 r -> is_uint8 g -> is_uint8 b ->
  (ColorRGB st = rgb24 r g b ->
     exec cfg gpu (CoDl_colorRgb r g b) h = Some h) /\
  (ColorRGB st <> rgb24 r g b ->
     exists h' : EVE_HalContext,
       exec cfg gpu (CoDl_colorRgb r g b) h = Some h' /\
       CoCmdDl h' = CoCmdDl h ++ [WORD_OR (COLOR_RGB 0 0 0) (rgb24 r g b)] /\
       EVE_DL_STATE h' = Some (with_ColorRGB (rgb24 r g b) st)) /\
  (forall r' g' b' : Z,
     is_uint8 r' -> is_uint8 g' -> is_uint8 b' ->
     rgb24 r' g' b' = rgb24 r g b -> r' = r /\ g' = g /\ b' = b).
Proof.
  intros Hopt Hst Hr Hg Hb.
  assert (Hv : field_value Cached_ColorRGB
                 (Z.lor (Z.lor (Z.shiftl r 16) (Z.shiftl g 8)) b)
               = rgb24 r g b).
  { rewrite pack_rgb24 by assumption. apply field_value_in_range.
    intros _. apply rgb24_range; assumption. }
  simpl. unfold EVE_CoDl_colorRgb.
  change (EVE_CoDl_colorRgb_ex cfg
            (Z.lor (Z.lor (Z.shiftl r 16) (Z.shiftl g 8)) b))
    with (cached_setter cfg Cached_ColorRGB
            (Z.lor (Z.lor (Z.shiftl r 16) (Z.shiftl g 8)) b)).
  split; [| split].
  - intros E. apply (cached_setter_hit cfg _ _ h st); try assumption.
    simpl. simpl in Hv. rewrite Hv. exact E.
  - intros E.
    rewrite (cached_setter_miss cfg _ _ h st)
      by (try assumption; simpl; simpl in Hv; rewrite Hv; exact E).
    eexists. split; [reflexivity |]. simpl. simpl in Hv. rewrite Hv.
    split; [reflexivity |]. apply (EVE_DL_STATE_put_state _ st), Hst.
  - unfold is_uint8, rgb24 in *. intros r' g' b' Hr' Hg' Hb' E. lia.
Qed.

Lemma colorRgb_suppressed_iff_same_triple_witness :
  EVE_DL_OPTIMIZE cfg_cached = true /\
  EVE_DL_STATE host_sample = Some st_sample /\
  is_uint8 255 /\ is_uint8 254 /\
  exec cfg_cached gpu_sample (CoDl_colorRgb 255 255 255) host_sample
  = Some host_sample /\
  exists h' : EVE_HalContext,
    exec cfg_cached gpu_sample (CoDl_colorRgb 255 255 254) host_sample
    = Some h' /\
    CoCmdDl h' = [WORD_OR (COLOR_RGB 0 0 0) 0xFFFFFE].
Proof.
  assert (H255 : is_uint8 255) by (unfold is_uint8; lia).
  assert (H254 : is_uint8 254) by (unfold is_uint8; lia).
  split; [reflexivity |]. split; [reflexivity |].
  split; [exact H255 |]. split; [exact H254 |]. split.
  - apply (proj1 (colorRgb_suppressed_iff_same_triple cfg_cached gpu_sample
                    255 255 255 host_sample st_sample eq_refl eq_refl
                    H255 H255 H255)).
    reflexivity.
  - destruct (proj1 (proj2 (colorRgb_suppressed_iff_same_triple cfg_cached
                              gpu_sample 255 255 254 host_sample st_sample
                              eq_refl eq_refl H255 H255 H254)))
      as (h' & He & Hw & _); [vm_compute; lia |].
    exists h'. split; [exact He | exact Hw].
Defined.

(** *** Vertices *)

Lemma exec_fixed_point_vertex (cfg : EVE_Config) (gpu : EVE_GpuDefs)
    (c : CoDlCall) :
  is_fixed_point_vertex c = true ->
  exec cfg gpu c
  = (cached_setter cfg Cached_VertexFormat (vertex_format_of c) ;>
     EVE_CoCmd_dl (vertex_word_of c)).
Proof.
  destruct c; intros H; try discriminate H; simpl; try reflexivity.
  unfold EVE_CoDl_vertex2f_4.
  destruct ((EVE_VERTEX2F_MAX <? x) || (EVE_VERTEX2F_MAX <? y)); reflexivity.
Qed.

Lemma fixed_point_vertex_result (cfg : EVE_Config) (gpu : EVE_GpuDefs)
    (c : CoDlCall) (h : EVE_HalContext) (st : EVE_HalDlState) :
  EVE_DL_OPTIMIZE cfg = true ->
  EVE_DL_STATE h = Some st ->
  is_fixed_point_vertex c = true ->
  exists h' : EVE_HalContext,
    exec cfg gpu c h = Some h' /\
    CoCmdDl h' = CoCmdDl h
                 ++ setter_words Cached_VertexFormat (vertex_format_of c) st
                 ++ [vertex_word_of c] /\
    EVE_DL_STATE h' = Some (with_VertexFormat (vertex_format_of c) st).
Proof.
  intros Hopt Hst Hc. rewrite (exec_fixed_point_vertex cfg gpu c Hc).
  destruct (cached_setter_result cfg Cached_VertexFormat (vertex_format_of c)
              h st Hopt Hst) as (h1 & H1 & W1 & S1 & _).
  unfold seq_op. rewrite H1; simpl. eexists. split; [reflexivity |].
  simpl. rewrite W1, <- app_assoc. split; [reflexivity | exact S1].
Qed.

(** X5. With caching on, of two consecutive fixed-point vertex calls
    ([vertex2f_0], [vertex2f_2], [vertex2f_4]) the second writes only its
    vertex word when it asks for the format the first one set, and its
    format word followed by its vertex word when it asks for another one,
    as a [vertex2f_4] call does when it alternates between the fallback and
    the plain range. *)
Theorem consecutive_vertices_reuse_format
    (cfg : EVE_Config) (gpu : EVE_GpuDefs) (c1 c2 : CoDlCall)
    (h : EVE_HalContext) (st : EVE_HalDlState) :
  EVE_DL_OPTIMIZE cfg = true ->
  EVE_DL_STATE h = Some st ->
  is_fixed_point_vertex c1 = true ->
  is_fixed_point_vertex c2 = true ->
  exists h1 h2 : EVE_HalContext,
    exec cfg gpu c1 h = Some h1 /\
    exec cfg gpu c2 h1 = Some h2 /\
    VertexFormat <$> EVE_DL_STATE h1 = Some (vertex_format_of c1) /\
    VertexFormat <$> EVE_DL_STATE h2 = Some (vertex_format_of c2) /\
    (vertex_format_of c2 = vertex_format_of c1 ->
       CoCmdDl h2 = CoCmdDl h1 ++ [vertex_word_of c2]) /\
    (vertex_format_of c2 <> vertex_format_of c1 ->
       CoCmdDl h2 = CoCmdDl h1
                    ++ [VERTEX_FORMAT (vertex_format_of c2); vertex_word_of c2]).
Proof.
  intros Hopt Hst Hc1 Hc2.
  destruct (fixed_point_vertex_result cfg gpu c1 h st Hopt Hst Hc1)
    as (h1 & H1 & _ & S1).
  destruct (fixed_point_vertex_result cfg gpu c2 h1 _ Hopt S1 Hc2)
    as (h2 & H2 & W2 & S2).
  exists h1, h2. rewrite S1, S2. repeat split; try assumption.
  - intros E. rewrite W2. unfold setter_words; simpl.
    rewrite E, Z.eqb_refl. reflexivity.
  - intros E. rewrite W2. unfold setter_words; simpl.
    destruct (Z.eqb_spec (vertex_format_of c1) (vertex_format_of c2));
      [congruence | reflexivity].
Qed.

Lemma consecutive_vertices_reuse_format_witness :
  EVE_DL_OPTIMIZE cfg_cached = true /\
  EVE_DL_STATE host_sample = Some st_sample /\
  (exists h1 h2 : EVE_HalContext,
     exec cfg_cached gpu_sample (CoDl_vertex2f_2 10 10) host_sample = Some h1 /\
     exec cfg_cached gpu_sample (CoDl_vertex2f_2 20 20) h1 = Some h2 /\
     CoCmdDl h2 = CoCmdDl h1 ++ [VERTEX2F 20 20]) /\
  (exists h1 h2 : EVE_HalContext,
     exec cfg_cached gpu_sample (CoDl_vertex2f_4 10 10) host_sample = Some h1 /\
     exec cfg_cached gpu_sample (CoDl_vertex2f_4 20000 20) h1 = Some h2 /\
     CoCmdDl h2 = CoCmdDl h1 ++ [VERTEX_FORMAT 3; VERTEX2F 10000 10]).
Proof.
  split; [reflexivity |]. split; [reflexivity |]. split.
  - destruct (consecutive_vertices_reuse_format cfg_cached gpu_sample
                (CoDl_vertex2f_2 10 10) (CoDl_vertex2f_2 20 20)
                host_sample st_sample eq_refl eq_refl eq_refl eq_refl)
      as (h1 & h2 & H1 & H2 & _ & _ & Hsame & _).
    exists h1, h2. split; [exact H1 |]. split; [exact H2 |].
    apply Hsame. reflexivity.
  - destruct (consecutive_vertices_reuse_format cfg_cached gpu_sample
                (CoDl_vertex2f_4 10 10) (CoDl_vertex2f_4 20000 20)
                host_sample st_sample eq_refl eq_refl eq_refl eq_refl)
      as (h1 & h2 & H1 & H2 & _ & _ & _ & Hdiff).
    exists h1, h2. split; [exact H1 |]. split; [exact H2 |].
    apply Hdiff. vm_compute. lia.
Defined.

(** X6. For signed 16-bit [x] and [y], in every configuration, the vertex
    word [vertex2f_4] writes last never carries a coordinate above
    [EVE_VERTEX2F_MAX]: in the fallback both coordinates are the halves
    rounded down, which lie between [EVE_VERTEX2F_MIN] and
    [EVE_VERTEX2F_MAX]; otherwise they are [x] and [y] themselves. *)
Theorem vertex2f_4_coordinates_bounded
    (cfg : EVE_Config) (gpu : EVE_GpuDefs) (x y : Z)
    (h : EVE_HalContext) (st : EVE_HalDlState) :
  is_int16 x -> is_int16 y ->
  EVE_DL_STATE h = Some st ->
  exists (h' : EVE_HalContext) (x' y' : Z),
    exec cfg gpu (CoDl_vertex2f_4 x y) h = Some h' /\
    list.last (CoCmdDl h') = Some (VERTEX2F x' y') /\
    x' <= EVE_VERTEX2F_MAX /\ y' <= EVE_VERTEX2F_MAX /\
    (EVE_VERTEX2F_MAX < x \/ EVE_VERTEX2F_MAX < y ->
       x' = x / 2 /\ y' = y / 2 /\
       EVE_VERTEX2F_MIN <= x' /\ EVE_VERTEX2F_MIN <= y') /\
    (x <= EVE_VERTEX2F_MAX /\ y <= EVE_VERTEX2F_MAX -> x' = x /\ y' = y).
Proof.
  intros Hx Hy Hst. simpl. unfold EVE_CoDl_vertex2f_4.
  assert (Hhalf : forall z, is_int16 z ->
            to_int16 (Z.shiftr z 1) = z / 2 /\
            EVE_VERTEX2F_MIN <= z / 2 <= EVE_VERTEX2F_MAX).
  { intros z Hz. rewrite to_int16_small by (apply shiftr_1_int16, Hz).
    rewrite Z.shiftr_div_pow2 by lia. change (2 ^ 1) with 2.
    unfold is_int16, EVE_VERTEX2F_MIN, EVE_VERTEX2F_MAX in *.
    split; [reflexivity |]. split.
    - apply Z.div_le_lower_bound; lia.
    - assert (z / 2 < 16384) by (apply Z.div_lt_upper_bound; lia). lia. }
  destruct (Hhalf x Hx) as (Ex & Bx). destruct (Hhalf y Hy) as (Ey & By).
  destruct (Z.ltb_spec EVE_VERTEX2F_MAX x) as [Hxm | Hxm];
    [| destruct (Z.ltb_spec EVE_VERTEX2F_MAX y) as [Hym | Hym]]; simpl.
  1, 2: destruct (format_then_vertex cfg 3 (to_int16 (Z.shiftr x 1))
                    (to_int16 (Z.shiftr y 1)) h st Hst) as (h' & Hr & Hw & _);
    exists h', (x / 2), (y / 2); (split; [exact Hr |]);
    (split; [rewrite Hw, Ex, Ey; unfold format_and_vertex_words;
             rewrite app_assoc; apply last_snoc |]);
    repeat split; try lia.
  destruct (format_then_vertex cfg 4 x y h st Hst) as (h' & Hr & Hw & _).
  exists h', x, y. split; [exact Hr |].
  split; [rewrite Hw; unfold format_and_vertex_words;
          rewrite app_assoc; apply last_snoc |].
  repeat split; try lia.
Qed.

Lemma vertex2f_4_coordinates_bounded_witness :
  is_int16 32767 /\ is_int16 (-32768) /\
  EVE_DL_STATE host_sample = Some st_sample /\
  exists h' : EVE_HalContext,
    exec cfg_cached gpu_sample (CoDl_vertex2f_4 32767 (-32768)) host_sample
    = Some h' /\
    list.last (CoCmdDl h') = Some (VERTEX2F 16383 (-16384)).
Proof.
  assert (H1 : is_int16 32767) by (unfold is_int16; lia).
  assert (H2 : is_int16 (-32768)) by (unfold is_int16; lia).
  split; [exact H1 |]. split; [exact H2 |]. split; [reflexivity |].
  destruct (vertex2f_4_coordinates_bounded cfg_cached gpu_sample 32767 (-32768)
              host_sample st_sample H1 H2 eq_refl)
    as (h' & x' & y' & He & Hl & _ & _ & Hf & _).
  destruct Hf as (-> & -> & _); [left; unfold EVE_VERTEX2F_MAX; lia |].
  exists h'. split; [exact He | exact Hl].
Defined.

(** *** Primitives *)

(** X7. With caching on, a primitive [t] that is not continuous, not 0 and
    not already active, begun, ended and begun again writes a single
    [BEGIN(t)] when explicit END is off ([end] is then empty and the second
    [begin] is suppressed), and [BEGIN(t)], [END], [BEGIN(t)] when explicit
    END is on; [t] is active afterwards in both cases. *)
Theorem begin_end_begin
    (cfg : EVE_Config) (gpu : EVE_GpuDefs) (t : Z) (h : EVE_HalContext) :
  EVE_DL_OPTIMIZE cfg = true ->
  is_continuous gpu t = false ->
  t <> 0 ->
  t <> reset_continuous gpu (DlPrimitive h) ->
  exists h' : EVE_HalContext,
    run cfg gpu [CoDl_begin t; CoDl_end; CoDl_begin t] h = Some h' /\
    DlPrimitive h' = t /\
    (EVE_DL_END_PRIMITIVE cfg = false -> CoCmdDl h' = CoCmdDl h ++ [BEGIN t]) /\
    (EVE_DL_END_PRIMITIVE cfg = true ->
       CoCmdDl h' = CoCmdDl h ++ [BEGIN t; END; BEGIN t]).
Proof.
  intros Hopt Ht Ht0 Hne. simpl. unfold seq_op, skip.
  rewrite begin_emits by assumption. simpl.
  unfold EVE_CoDl_end. rewrite Hopt.
  destruct (EVE_DL_END_PRIMITIVE cfg); simpl.
  - destruct (Z.eqb_spec t 0) as [E | _]; [contradiction |]. simpl.
    rewrite begin_emits;
      [| exact Hopt
       | simpl; unfold reset_continuous;
         destruct (is_continuous gpu 0); exact Ht0]. simpl.
    eexists. split; [reflexivity |]. simpl.
    repeat split; try discriminate. intros _. rewrite <- !app_assoc. reflexivity.
  - rewrite begin_skips;
      [| exact Hopt | simpl; unfold reset_continuous; rewrite Ht; reflexivity].
    simpl. eexists. split; [reflexivity |]. simpl.
    repeat split; try discriminate.
Qed.

Lemma begin_end_begin_witness :
  EVE_DL_OPTIMIZE cfg_cached = true /\
  is_continuous gpu_sample 9 = false /\
  (exists h' : EVE_HalContext,
     run cfg_cached gpu_sample [CoDl_begin 9; CoDl_end; CoDl_begin 9]
       host_sample = Some h' /\
     CoCmdDl h' = [BEGIN 9]) /\
  (exists h' : EVE_HalContext,
     run cfg_cached_end gpu_sample [CoDl_begin 9; CoDl_end; CoDl_begin 9]
       host_sample = Some h' /\
     CoCmdDl h' = [BEGIN 9; END; BEGIN 9]).
Proof.
  assert (H0 : (9 : Z) <> 0) by lia.
  assert (Hne : 9 <> reset_continuous gpu_sample (DlPrimitive host_sample))
    by (vm_compute; lia).
  split; [reflexivity |]. split; [reflexivity |]. split.
  - destruct (begin_end_begin cfg_cached gpu_sample 9 host_sample
                eq_refl eq_refl H0 Hne) as (h' & Hr & _ & Hoff & _).
    exists h'. split; [exact Hr | apply Hoff; reflexivity].
  - destruct (begin_end_begin cfg_cached_end gpu_sample 9 host_sample
                eq_refl eq_refl H0 Hne) as (h' & Hr & _ & _ & Hon).
    exists h'. split; [exact Hr | apply Hon; reflexivity].
Defined.

(** *** The bitmap transform, further *)

(** X8. With caching on, [bitmapTransform_ex] writes its six coefficient
    words in the order A, B, C, D, E, F, whatever the cached flag, and
    records that a transform other than the identity is set; the identity
    call that follows therefore writes the six identity words and records
    the identity again. *)
Theorem bitmapTransform_ex_marks_transform
    (cfg : EVE_Config) (gpu : EVE_GpuDefs) (p : bool) (a b c d e f : Z)
    (h : EVE_HalContext) (st : EVE_HalDlState) :
  EVE_DL_OPTIMIZE cfg = true ->
  EVE_DL_STATE h = Some st ->
  exists h1 h2 : EVE_HalContext,
    exec cfg gpu (CoDl_bitmapTransform_ex p a b c d e f) h = Some h1 /\
    CoCmdDl h1 = CoCmdDl h
                 ++ [BITMAP_TRANSFORM_A_EXT p a; BITMAP_TRANSFORM_B_EXT p b;
                     BITMAP_TRANSFORM_C c; BITMAP_TRANSFORM_D_EXT p d;
                     BITMAP_TRANSFORM_E_EXT p e; BITMAP_TRANSFORM_F f] /\
    EVE_DL_STATE h1 = Some (with_BitmapTransform true st) /\
    exec cfg gpu CoDl_bitmapTransform_identity h1 = Some h2 /\
    CoCmdDl h2 = CoCmdDl h1 ++ identity_words /\
    EVE_DL_STATE h2 = Some (with_BitmapTransform false st).
Proof.
  intros Hopt Hst. simpl.
  assert (Hsix : exists h0 : EVE_HalContext,
            (coefficient_setter cfg (BITMAP_TRANSFORM_A_EXT p a) ;>
             coefficient_setter cfg (BITMAP_TRANSFORM_B_EXT p b) ;>
             coefficient_setter cfg (BITMAP_TRANSFORM_C c) ;>
             coefficient_setter cfg (BITMAP_TRANSFORM_D_EXT p d) ;>
             coefficient_setter cfg (BITMAP_TRANSFORM_E_EXT p e) ;>
             coefficient_setter cfg (BITMAP_TRANSFORM_F f)) h = Some h0 /\
            CoCmdDl h0 = CoCmdDl h
                         ++ ((((([BITMAP_TRANSFORM_A_EXT p a]
                                 ++ [BITMAP_TRANSFORM_B_EXT p b])
                                ++ [BITMAP_TRANSFORM_C c])
                               ++ [BITMAP_TRANSFORM_D_EXT p d])
                              ++ [BITMAP_TRANSFORM_E_EXT p e])
                             ++ [BITMAP_TRANSFORM_F f]) /\
            EVE_DL_STATE h0 = Some (with_BitmapTransform true st)).
  { do 5 (apply coefficient_chain; [exact Hopt |]).
    apply coefficient_setter_spec; assumption. }
  destruct Hsix as (h0 & H0 & W0 & S0).
  pose (h1 := put_state (with_BitmapTransform true st) h0).
  assert (H1 : EVE_CoDl_bitmapTransform_ex cfg p a b c d e f h = Some h1).
  { unfold EVE_CoDl_bitmapTransform_ex.
    change (EVE_CoDl_bitmapTransformA_ex cfg p a)
      with (coefficient_setter cfg (BITMAP_TRANSFORM_A_EXT p a)).
    change (EVE_CoDl_bitmapTransformB_ex cfg p b)
      with (coefficient_setter cfg (BITMAP_TRANSFORM_B_EXT p b)).
    change (EVE_CoDl_bitmapTransformC cfg c)
      with (coefficient_setter cfg (BITMAP_TRANSFORM_C c)).
    change (EVE_CoDl_bitmapTransformD_ex cfg p d)
      with (coefficient_setter cfg (BITMAP_TRANSFORM_D_EXT p d)).
    change (EVE_CoDl_bitmapTransformE_ex cfg p e)
      with (coefficient_setter cfg (BITMAP_TRANSFORM_E_EXT p e)).
    change (EVE_CoDl_bitmapTransformF cfg f)
      with (coefficient_setter cfg (BITMAP_TRANSFORM_F f)).
    unfold seq_op at 1. rewrite H0; simpl. unfold when. rewrite Hopt.
    rewrite (assign_EVE_DL_STATE_eq _ _ _ S0). reflexivity. }
  assert (S1 : EVE_DL_STATE h1 = Some (with_BitmapTransform true st))
    by (apply (EVE_DL_STATE_put_state _ _ _ S0)).
  destruct (identity_miss cfg h1 _ Hopt S1 eq_refl) as (h2 & H2 & W2 & S2).
  exists h1, h2. repeat split; assumption.
Qed.

Lemma bitmapTransform_ex_marks_transform_witness :
  EVE_DL_OPTIMIZE cfg_cached = true /\
  EVE_DL_STATE host_sample = Some st_sample /\
  exists h1 h2 : EVE_HalContext,
    exec cfg_cached gpu_sample
      (CoDl_bitmapTransform_ex false 512 0 0 0 512 0) host_sample = Some h1 /\
    CoCmdDl h1 = [BITMAP_TRANSFORM_A_EXT false 512; BITMAP_TRANSFORM_B_EXT false 0;
                  BITMAP_TRANSFORM_C 0; BITMAP_TRANSFORM_D_EXT false 0;
                  BITMAP_TRANSFORM_E_EXT false 512; BITMAP_TRANSFORM_F 0] /\
    exec cfg_cached gpu_sample CoDl_bitmapTransform_identity h1 = Some h2 /\
    CoCmdDl h2 = CoCmdDl h1 ++ identity_words.
Proof.
  split; [reflexivity |]. split; [reflexivity |].
  destruct (bitmapTransform_ex_marks_transform cfg_cached gpu_sample
              false 512 0 0 0 512 0 host_sample st_sample eq_refl eq_refl)
    as (h1 & h2 & H1 & W1 & _ & H2 & W2 & _).
  exists h1, h2. auto.
Defined.

(** X9. With caching on, the identity call is idempotent from every state:
    whatever the flag was, a second identity call right after the first
    returns the context unchanged; the first writes the six identity words
    exactly when a transform was recorded. *)
Theorem bitmapTransform_identity_idempotent
    (cfg : EVE_Config) (gpu : EVE_GpuDefs)
    (h : EVE_HalContext) (st : EVE_HalDlState) :
  EVE_DL_OPTIMIZE cfg = true ->
  EVE_DL_STATE h = Some st ->
  exists h1 : EVE_HalContext,
    exec cfg gpu CoDl_bitmapTransform_identity h = Some h1 /\
    exec cfg gpu CoDl_bitmapTransform_identity h1 = Some h1 /\
    run cfg gpu [CoDl_bitmapTransform_identity; CoDl_bitmapTransform_identity] h
    = Some h1 /\
    CoCmdDl h1 = CoCmdDl h
                 ++ (if BitmapTransform st then identity_words else []) /\
    EVE_DL_STATE h1 = Some (with_BitmapTransform false st).
Proof.
  intros Hopt Hst. simpl. unfold seq_op, skip.
  destruct (BitmapTransform st) eqn:Hb.
  - destruct (identity_miss cfg h st Hopt Hst Hb) as (h1 & H1 & W1 & S1).
    assert (H2 : EVE_CoDl_bitmapTransform_identity cfg h1 = Some h1)
      by (apply (identity_hit cfg h1 _ Hopt S1); reflexivity).
    exists h1. rewrite H1; simpl. rewrite H2. auto.
  - assert (H1 : EVE_CoDl_bitmapTransform_identity cfg h = Some h)
      by (apply (identity_hit cfg h st); assumption).
    exists h. rewrite H1; simpl. rewrite H1, app_nil_r.
    repeat split. rewrite Hst. f_equal. destruct st; simpl in *. subst.
    reflexivity.
Qed.

Lemma bitmapTransform_identity_idempotent_witness :
  EVE_DL_OPTIMIZE cfg_cached = true /\
  EVE_DL_STATE host_sample = Some st_sample /\
  run cfg_cached gpu_sample
    [CoDl_bitmapTransform_identity; CoDl_bitmapTransform_identity] host_sample
  = Some host_sample.
Proof.
  split; [reflexivity |]. split; [reflexivity |].
  destruct (bitmapTransform_identity_idempotent cfg_cached gpu_sample
              host_sample st_sample eq_refl eq_refl)
    as (h1 & H1 & _ & Hr & _).
  rewrite Hr. rewrite <- H1. reflexivity.
Defined.

(** *** The context stack, further *)




(** X11. The index wraps at both ends and has the stack size as period: a
    restore at index 0 moves to the last slot, a save at the last slot
    moves to index 0, and as many restores, or as many saves, as the stack
    has slots bring the index back to where it was.  The restores leave
    every snapshot alone; after the saves the active shadow state is still
    the one saved from. *)
Theorem stack_index_wraps
    (cfg : EVE_Config) (gpu : EVE_GpuDefs) (k : Z) (h : EVE_HalContext) :
  stack_pow2 cfg k ->
  has_dl_state cfg = true ->
  wf_host cfg h ->
  (DlStateIndex h = 0 ->
     DlStateIndex <$> exec cfg gpu CoDl_restoreContext h
     = Some (EVE_DL_STATE_STACK_MASK cfg)) /\
  (DlStateIndex h = EVE_DL_STATE_STACK_MASK cfg ->
     DlStateIndex <$> exec cfg gpu CoDl_saveContext h = Some 0) /\
  (exists h' : EVE_HalContext,
     run cfg gpu
       (repeat CoDl_restoreContext (Z.to_nat (EVE_DL_STATE_STACK_SIZE cfg))) h
     = Some h' /\
     DlStateIndex h' = DlStateIndex h /\ DlState h' = DlState h) /\
  (exists h' : EVE_HalContext,
     run cfg gpu
       (repeat CoDl_saveContext (Z.to_nat (EVE_DL_STATE_STACK_SIZE cfg))) h
     = Some h' /\
     DlStateIndex h' = DlStateIndex h /\
     EVE_DL_STATE h' = EVE_DL_STATE h).
Proof.
  intros Hp Hd Hwf.
  pose proof (stack_size_bounds cfg k Hp) as Hb.
  assert (Hm : EVE_DL_STATE_STACK_MASK cfg = EVE_DL_STATE_STACK_SIZE cfg - 1)
    by (destruct Hp as (_ & Hs & Hm); lia).
  assert (Hi : 0 <= DlStateIndex h < EVE_DL_STATE_STACK_SIZE cfg) by apply Hwf.
  split; [| split; [| split]].
  - intros H0. simpl.
    destruct (restoreContext_spec cfg k h Hp Hd) as (h' & Hr & _ & Ir & _).
    rewrite Hr; simpl. rewrite Ir, H0, Hm. f_equal.
    replace (0 - 1) with (EVE_DL_STATE_STACK_SIZE cfg - 1
                          + (-1) * EVE_DL_STATE_STACK_SIZE cfg) by lia.
    rewrite Z_mod_plus_full. apply Z.mod_small. lia.
  - intros H0. simpl.
    destruct (saveContext_spec cfg k h Hp Hd Hwf) as (h' & Hs & _ & Is & _).
    rewrite Hs; simpl. rewrite Is, H0, Hm. f_equal.
    replace (EVE_DL_STATE_STACK_SIZE cfg - 1 + 1)
      with (EVE_DL_STATE_STACK_SIZE cfg) by lia.
    apply Z_mod_same_full.
  - destruct (restores_plain cfg gpu k (Z.to_nat (EVE_DL_STATE_STACK_SIZE cfg))
                Hp Hd (DlStateIndex h) 0 h)
      as (h' & Hr & Ir & Dr & _).
    { rewrite Z.add_0_r. symmetry. apply Z.mod_small, Hi. }
    exists h'. split; [exact Hr |]. split; [| exact Dr].
    rewrite Ir, Z2Nat.id by lia.
    replace (DlStateIndex h + (0 - EVE_DL_STATE_STACK_SIZE cfg))
      with (DlStateIndex h + (-1) * EVE_DL_STATE_STACK_SIZE cfg) by lia.
    rewrite Z_mod_plus_full. apply Z.mod_small, Hi.
  - destruct (array_get_is_Some (DlState h) (DlStateIndex h)) as [s0 Hs0];
      [apply wf_host_live with cfg, Hwf |].
    destruct (saves_plain cfg gpu k (Z.to_nat (EVE_DL_STATE_STACK_SIZE cfg))
                Hp Hd (DlStateIndex h) s0 0 h Hi Hwf)
      as (h' & Hr & _ & Ir & Sr & _); try assumption.
    { rewrite Z.add_0_r. symmetry. apply Z.mod_small, Hi. }
    assert (Hidx : DlStateIndex h' = DlStateIndex h).
    { rewrite Ir, Z2Nat.id by lia.
      replace (DlStateIndex h + (0 + EVE_DL_STATE_STACK_SIZE cfg))
        with (DlStateIndex h + 1 * EVE_DL_STATE_STACK_SIZE cfg) by lia.
      rewrite Z_mod_plus_full. apply Z.mod_small, Hi. }
    exists h'. split; [exact Hr |]. split; [exact Hidx |].
    unfold EVE_DL_STATE. rewrite Hidx, Sr. symmetry. exact Hs0.
Qed.

Lemma stack_index_wraps_witness :
  stack_pow2 cfg_cached 2 /\ has_dl_state cfg_cached = true /\
  wf_host cfg_cached host_sample /\
  DlStateIndex host_sample = 0 /\
  DlStateIndex <$> exec cfg_cached gpu_sample CoDl_restoreContext host_sample
  = Some 3 /\
  exists h' : EVE_HalContext,
    run cfg_cached gpu_sample (repeat CoDl_restoreContext 4) host_sample
    = Some h' /\
    DlStateIndex h' = 0 /\ DlState h' = DlState host_sample.
Proof.
  pose proof (stack_index_wraps cfg_cached gpu_sample 2 host_sample
                stack_pow2_cfg_cached eq_refl wf_host_sample)
    as (H0 & _ & Hrest & _).
  split; [exact stack_pow2_cfg_cached |]. split; [reflexivity |].
  split; [exact wf_host_sample |]. split; [reflexivity |].
  split; [exact (H0 eq_refl) | exact Hrest].
Defined.

(** *** Independence of the cached fields *)

Lemma field_get_with_ne (f g : CachedField) (v : Z) (st : EVE_HalDlState) :
  f <> g -> field_get g (field_with f v st) = field_get g st.
Proof. destruct f, g; intros H; try reflexivity; contradiction. Qed.

(** X12. With caching on, a cacheable setter changes nothing in the shadow
    state but its own field: the cached values of the other seven fields,
    the scissor rectangle and the transform flag stay, so a value cached
    for another field is still suppressed after the call. *)
Theorem setter_keeps_other_fields
    (cfg : EVE_Config) (gpu : EVE_GpuDefs) (f g : CachedField) (v w : Z)
    (h : EVE_HalContext) (st : EVE_HalDlState) :
  EVE_DL_OPTIMIZE cfg = true ->
  EVE_DL_STATE h = Some st ->
  f <> g ->
  exists (h' : EVE_HalContext) (st' : EVE_HalDlState),
    exec cfg gpu (field_call f v) h = Some h' /\
    EVE_DL_STATE h' = Some st' /\
    field_get g st' = field_get g st /\
    ScissorX st' = ScissorX st /\ ScissorY st' = ScissorY st /\
    ScissorWidth st' = ScissorWidth st /\
    ScissorHeight st' = ScissorHeight st /\
    BitmapTransform st' = BitmapTransform st /\
    (field_get g st = field_value g w ->
       exec cfg gpu (field_call g w) h' = Some h').
Proof.
  intros Hopt Hst Hfg.
  destruct (cached_setter_result cfg f v h st Hopt Hst)
    as (h' & He & _ & Hs & _).
  exists h', (field_with f (field_value f v) st).
  rewrite exec_field_call. split; [exact He |]. split; [exact Hs |].
  split; [apply field_get_with_ne, Hfg |].
  repeat (split; [destruct f; reflexivity |]).
  intros Hg. rewrite exec_field_call.
  apply (cached_setter_hit cfg g w h' _ Hopt Hs).
  rewrite field_get_with_ne by exact Hfg. exact Hg.
Qed.

Lemma setter_keeps_other_fields_witness :
  EVE_DL_OPTIMIZE cfg_cached = true /\
  EVE_DL_STATE host_sample = Some st_sample /\
  Cached_ColorA <> Cached_PointSize /\
  exists h' : EVE_HalContext,
    exec cfg_cached gpu_sample (CoDl_colorA 7) host_sample = Some h' /\
    PointSize <$> EVE_DL_STATE h' = Some 16 /\
    exec cfg_cached gpu_sample (CoDl_pointSize 16) h' = Some h'.
Proof.
  assert (Hne : Cached_ColorA <> Cached_PointSize) by discriminate.
  split; [reflexivity |]. split; [reflexivity |]. split; [exact Hne |].
  destruct (setter_keeps_other_fields cfg_cached gpu_sample
              Cached_ColorA Cached_PointSize 7 16 host_sample st_sample
              eq_refl eq_refl Hne)
    as (h' & st' & He & Hs & Hg & _ & _ & _ & _ & _ & Hsup).
  exists h'. split; [exact He |]. split.
  - rewrite Hs. simpl. f_equal. exact Hg.
  - apply Hsup. reflexivity.
Defined.

(** *** Both caches off *)

Lemma emit_all_emit_all (ws1 ws2 : list DlWord) (h : EVE_HalContext) :
  emit_all ws2 (emit_all ws1 h) = emit_all (ws1 ++ ws2) h.
Proof. unfold emit_all; simpl. rewrite <- app_assoc. reflexivity. Qed.

Lemma emit_all_nil (h : EVE_HalContext) : emit_all [] h = h.
Proof. destruct h. unfold emit_all; simpl. rewrite app_nil_r. reflexivity. Qed.

Lemma exec_without_caches (cfg : EVE_Config) (gpu : EVE_GpuDefs)
    (c : CoDlCall) (h : EVE_HalContext) :
  EVE_DL_OPTIMIZE cfg = false ->
  EVE_DL_CACHE_SCISSOR cfg = false ->
  exec cfg gpu c h = Some (emit_all (full_words gpu c) h).
Proof.
  intros Hopt Hcs. destruct (is_write_only c) eqn:Hw.
  { apply write_only_exec_emit_all, Hw. }
  destruct h as [i p a d].
  destruct c; try discriminate Hw; unfold emit_all; simpl;
    unfold EVE_CoDl_colorRgb, EVE_CoDl_colorArgb_ex, EVE_CoDl_colorRgb_ex,
      EVE_CoDl_colorA, EVE_CoDl_bitmapHandle, EVE_CoDl_cell,
      EVE_CoDl_pointSize, EVE_CoDl_lineWidth,
      EVE_CoDl_bitmapTransform_ex, EVE_CoDl_bitmapTransform_identity,
      bitmapTransform_identity_calls,
      EVE_CoDl_bitmapTransformA, EVE_CoDl_bitmapTransformA_ex,
      EVE_CoDl_bitmapTransformB, EVE_CoDl_bitmapTransformB_ex,
      EVE_CoDl_bitmapTransformC, EVE_CoDl_bitmapTransformD,
      EVE_CoDl_bitmapTransformD_ex, EVE_CoDl_bitmapTransformE,
      EVE_CoDl_bitmapTransformE_ex, EVE_CoDl_bitmapTransformF,
      EVE_CoDl_scissorXY, EVE_CoDl_scissorSize, EVE_CoDl_begin, EVE_CoDl_end,
      EVE_CoDl_saveContext, EVE_CoDl_restoreContext,
      EVE_CoDl_vertex2f_4, EVE_CoDl_vertex2f_2, EVE_CoDl_vertex2f_0,
      EVE_CoDl_vertexFormat, EVE_CoDl_paletteSource, EVE_CoDl_vertex2f,
      seq_op, when, EVE_CoCmd_dl, skip;
    rewrite ?Hopt, ?Hcs; simpl;
    try destruct ((EVE_VERTEX2F_MAX <? x) || (EVE_VERTEX2F_MAX <? y)); simpl;
    try destruct (EVE_DL_END_PRIMITIVE cfg); simpl;
    rewrite <- ?app_assoc; reflexivity.
Qed.

(** X13. With both caches off the encoder is stateless: from every
    context, well formed or not, a sequence of calls appends the
    concatenated bodies of the calls to the display list and leaves the
    index, the active primitive and the snapshots untouched. *)
Theorem run_without_caches_is_stateless
    (cfg : EVE_Config) (gpu : EVE_GpuDefs) (cs : list CoDlCall)
    (h : EVE_HalContext) :
  EVE_DL_OPTIMIZE cfg = false ->
  EVE_DL_CACHE_SCISSOR cfg = false ->
  run cfg gpu cs h = Some (emit_all (concat (map (full_words gpu) cs)) h).
Proof.
  intros Hopt Hcs. revert h. induction cs as [| c cs IH]; intros h; simpl.
  - rewrite emit_all_nil. reflexivity.
  - unfold seq_op. rewrite exec_without_caches by assumption. simpl.
    rewrite IH, emit_all_emit_all. reflexivity.
Qed.

Lemma run_without_caches_is_stateless_witness :
  EVE_DL_OPTIMIZE cfg_plain = false /\
  EVE_DL_CACHE_SCISSOR cfg_plain = false /\
  run cfg_plain gpu_sample
    [CoDl_colorA 255; CoDl_colorA 255; CoDl_saveContext; CoDl_end;
     CoDl_bitmapTransform_identity] host_no_state
  = Some (emit_all
            ([COLOR_A 255; COLOR_A 255; SAVE_CONTEXT; END] ++ identity_words)
            host_no_state).
Proof.
  split; [reflexivity |]. split; [reflexivity |].
  exact (run_without_caches_is_stateless cfg_plain gpu_sample
           [CoDl_colorA 255; CoDl_colorA 255; CoDl_saveContext; CoDl_end;
            CoDl_bitmapTransform_identity] host_no_state eq_refl eq_refl).
Defined.
